(** * Astarte AppEngine device API client: device accessors and the
      device-list paginator.

    A shallow embedding of [client/appengine_devices.go] together with the
    parts of its environment the accessors rely on: Go's [path] package
    (embedded in full), [net/url] and [encoding/json] (kept abstract), the
    HTTP-JSON collaborator and the paginator's cursor operations (both
    modelled from the specification, since only their callers live in this
    file). *)

From Stdlib Require Import ZArith String Ascii List Lia DecimalString DecimalZ.
From stdpp Require Import base gmap strings list.

Open Scope string_scope.
Open Scope list_scope.

(** ** Go's [path] package

    [path.Join] cleans its result, so the request paths the client builds
    are the cleaned form of the formatted string.  [Clean] follows the byte
    loop of the Go implementation: [rest] is [path[r:]], [out] is the
    written prefix of the output buffer kept in reverse (its length is
    [out.w]), and [dotdot] is the index below which [..] may not
    backtrack. *)
Module path.

Definition isSlash (c : ascii) : bool := Ascii.eqb c "/".
Definition isDot (c : ascii) : bool := Ascii.eqb c ".".

(** [r+k == n || path[r+k] == '/'], for the suffix starting at [r+k]. *)
Definition atEndOrSlash (s : string) : bool :=
  match s with
  | EmptyString => true
  | String c _ => isSlash c
  end.

(** The inner loop of the [..] case, entered after the first [out.w--]:
    [for out.w > dotdot && out.index(out.w) != '/' { out.w-- }].
    [pending] is [out.index(out.w)], the byte just above the buffer end. *)
Fixpoint backtrack (pending : ascii) (out : list ascii) (dotdot : nat)
    : list ascii :=
  match out with
  | [] => out
  | c :: out' =>
      if (dotdot <? List.length out)%nat && negb (isSlash pending)
      then backtrack c out' dotdot
      else out
  end.

(** [for ; r < n && path[r] != '/'; r++ { out.append(path[r]) }] *)
Fixpoint copyElement (rest : string) (out : list ascii)
    : string * list ascii :=
  match rest with
  | EmptyString => (rest, out)
  | String c rest' =>
      if isSlash c then (rest, out) else copyElement rest' (c :: out)
  end.

(** The separator written before a real path element:
    [if rooted && out.w != 1 || !rooted && out.w != 0 { out.append('/') }] *)
Definition pushSlash (rooted : bool) (out : list ascii) : list ascii :=
  if (rooted && negb (List.length out =? 1)%nat)
     || (negb rooted && negb (List.length out =? 0)%nat)
  then "/"%char :: out else out.

(** The main loop [for r < n { switch { ... } }].  Every iteration
    consumes at least one byte, so [fuel = len(path)] always suffices. *)
Fixpoint cleanLoop (fuel : nat) (rooted : bool) (rest : string)
    (out : list ascii) (dotdot : nat) : list ascii :=
  match fuel, rest with
  | O, _ => out
  | _, EmptyString => out
  | S fuel', String c r1 =>
      if isSlash c then
        (* empty path element *)
        cleanLoop fuel' rooted r1 out dotdot
      else if isDot c && atEndOrSlash r1 then
        (* . element *)
        cleanLoop fuel' rooted r1 out dotdot
      else if isDot c && match r1 with
                         | String c1 r2 => isDot c1 && atEndOrSlash r2
                         | EmptyString => false
                         end
      then
        (* .. element: remove to last / *)
        let r2 := match r1 with String _ r2 => r2 | EmptyString => r1 end in
        if (dotdot <? List.length out)%nat then
          match out with
          | last :: out' =>
              cleanLoop fuel' rooted r2 (backtrack last out' dotdot) dotdot
          | [] => cleanLoop fuel' rooted r2 out dotdot
          end
        else if negb rooted then
          let out1 :=
            if (0 <? List.length out)%nat then "/"%char :: out else out in
          let out2 := "."%char :: "."%char :: out1 in
          cleanLoop fuel' rooted r2 out2 (List.length out2)
        else cleanLoop fuel' rooted r2 out dotdot
      else
        (* real path element: add slash if needed, then copy element *)
        let '(rest', out2) := copyElement rest (pushSlash rooted out) in
        cleanLoop fuel' rooted rest' out2 dotdot
  end.

Definition Clean (p : string) : string :=
  match p with
  | EmptyString => "."
  | String c0 tl =>
      let rooted := isSlash c0 in
      let out :=
        if rooted then cleanLoop (String.length p) rooted tl ["/"%char] 1
        else cleanLoop (String.length p) rooted p [] 0 in
      match out with
      | [] => "."
      | _ => string_of_list_ascii (rev out)
      end
  end.

(** The buffer loop of [Join]: empty leading elements are skipped, later
    elements are appended after a separating slash. *)
Fixpoint joinBuf (buf : string) (elem : list string) : string :=
  match elem with
  | [] => buf
  | e :: elem' =>
      if negb (String.eqb buf "") || negb (String.eqb e "") then
        joinBuf ((if negb (String.eqb buf "") then buf +:+ "/" else buf) +:+ e)
                elem'
      else joinBuf buf elem'
  end.

Definition Join (elem : list string) : string :=
  let size := fold_left (fun n e => n + String.length e)%nat elem 0%nat in
  if (size =? 0)%nat then "" else Clean (joinBuf "" elem).

End path.

(** ** Data model *)

(** [type DeviceIdentifierType int] with its three [iota] constants. *)
Inductive DeviceIdentifierType :=
| AutodiscoverDeviceIdentifier
| AstarteDeviceID
| AstarteDeviceAlias.

#[global] Instance DeviceIdentifierType_eq_dec : EqDecision DeviceIdentifierType.
Proof. solve_decision. Defined.

(** The fields of [url.URL] this file touches. *)
Record URL := mkURL {
  Scheme : string;
  Host : string;
  Path : string;
  RawQuery : string
}.

(** [callURL.Path = p] *)
Definition setPath (u : URL) (p : string) : URL :=
  {| Scheme := Scheme u; Host := Host u; Path := p; RawQuery := RawQuery u |}.

(** [callURL.RawQuery = q] *)
Definition setRawQuery (u : URL) (q : string) : URL :=
  {| Scheme := Scheme u; Host := Host u; Path := Path u; RawQuery := q |}.

(** [url.Values], a [map[string][]string]. *)
Abbreviation Values := (gmap string (list string)).

(** JSON documents: response bodies, and the value a PATCH payload
    marshals to.  A Go map literal with one entry is an object with one
    member; a [nil] interface value is [JNull]. *)
#[warnings="-register-all"]
Inductive JSON :=
| JNull
| JBool (b : bool)
| JNumber (z : Z)
| JString (s : string)
| JArray (items : list JSON)
| JObject (members : list (string * JSON)).

(** Go's [error] values, by the taxonomy of the specification: transport
    and status errors, decode errors, URL parse errors, and the state
    error of a paginator advanced past its end. *)
Inductive error :=
| TransportError (msg : string)
| UnexpectedStatus (code : Z) (body : JSON)
| DecodeError (msg : string)
| ParseError (msg : string)
| NoMorePages.

Inductive Method := GET | PATCH.

Record Request := mkRequest {
  reqMethod : Method;
  reqURL : string;
  reqPayload : option JSON
}.

Record Response := mkResponse {
  StatusCode : Z;
  Body : JSON
}.

(** [DeviceDetails] as the device detail endpoint returns it.  A [nil] Go
    map reads as the empty map. *)
Record DeviceDetails := mkDeviceDetails {
  DeviceID : string;
  Aliases : gmap string string;
  Metadata : gmap string string;
  CredentialsInhibited : bool
}.

(** [DeviceDetails{}] *)
Definition zeroDeviceDetails : DeviceDetails :=
  {| DeviceID := ""; Aliases := ∅; Metadata := ∅;
     CredentialsInhibited := false |}.

(** What one fetch of the collection endpoint decodes to: a page of device
    identifiers and an optional continuation token. *)
Record DevicePage := mkDevicePage {
  pageData : list string;
  pageNext : option string
}.

Definition zeroDevicePage : DevicePage :=
  {| pageData := []; pageNext := None |}.

(** A Go call either returns or panics (a nil dereference after an
    ignored [url.Parse] error). *)
Inductive Outcome (A : Type) :=
| Returned (a : A)
| Panicked.
Arguments Returned {A} a.
Arguments Panicked {A}.

(** Decoding a JSON body into a target of type [T], as [encoding/json]
    does through the pointer handed to the collaborator: the target may
    be (partially) written even when an error is reported. *)
Class Unmarshal (T : Type) := unmarshal : JSON -> T -> T * option error.

(** ** The environment of the client

    The Go standard library pieces that stay abstract ([net/url],
    [encoding/json]), the HTTP transport with the backend behind it, and
    the declarations of this package that live in other files. *)
Class Env := {
  (** The HTTP client handle the service holds. *)
  Client : Type;
  (** The backend's state. *)
  Server : Type;
  (** One HTTP exchange: a transport error or a response, and the
      backend's state afterwards. *)
  roundTrip : Client -> Request -> Server -> (error + Response) * Server;
  (** [url.Parse] *)
  url_Parse : string -> error + URL;
  (** The [String] method of [url.URL] *)
  URL_String : URL -> string;
  (** [url.Values.Encode] *)
  Values_Encode : Values -> string;
  (** [DevicesStats], declared elsewhere in the package. *)
  DevicesStats : Type;
  (** [DevicesStats{}] *)
  zeroDevicesStats : DevicesStats;
  unmarshalDeviceDetails : Unmarshal DeviceDetails;
  unmarshalStrings : Unmarshal (list string);
  unmarshalDevicesStats : Unmarshal DevicesStats;
  unmarshalDevicePage : Unmarshal DevicePage;
  (** [misc.IsValidAstarteDeviceID], the structural test of the
      canonical device ID shape. *)
  IsValidAstarteDeviceID : string -> bool;
  (** [devicePath], the type-specific path suffix of a device. *)
  devicePath : string -> DeviceIdentifierType -> string;
  (** [defaultPageSize] *)
  defaultPageSize : Z
}.

#[global] Existing Instances unmarshalDeviceDetails unmarshalStrings
  unmarshalDevicesStats unmarshalDevicePage.

(** The world an operation runs in: the backend, and the requests sent so
    far, oldest first. *)
Record World `{Env} := mkWorld {
  backend : Server;
  sent : list Request
}.

(** [AppEngineService] *)
Record AppEngineService `{Env} := mkAppEngineService {
  appEngineURL : URL;
  client : Client
}.

(** [DeviceListPaginator]; [pagClient] is its [client] field. *)
Record DeviceListPaginator `{Env} := mkDeviceListPaginator {
  baseURL : URL;
  nextQuery : Values;
  pageSize : Z;
  pagClient : Client;
  hasNextPage : bool
}.

(** [fmt.Sprintf("%v", n)] for an [int]. *)
Definition Itoa (z : Z) : string := NilZero.string_of_int (Z.to_int z).

(** Modelled from the spec: the two query parameters of the collection
    endpoint, the page-size bound and the continuation token.  The spec
    does not name them; these are the names of the Astarte API, and any
    two distinct keys behave alike. *)
Definition limitParam : string := "limit".
Definition tokenParam : string := "from_token".

Section Client.
Context `{Env}.

(** ** The HTTP-JSON collaborator *)

(** Modelled from the spec: the exchange underneath
    [genericJSONDataAPIGET] and [genericJSONDataAPIPatch], whose source is
    not in this file.  It performs one request, never retries, and
    enforces the expected success status: a transport failure is returned
    as it is, any status other than the expected one is a status error. *)
Definition exchange (c : Client) (req : Request) (expectedReturnCode : Z)
    (w : World) : (error + JSON) * World :=
  let '(r, b) := roundTrip c req (backend w) in
  let w' := {| backend := b; sent := sent w ++ [req] |} in
  match r with
  | inl e => (inl e, w')
  | inr resp =>
      if (StatusCode resp =? expectedReturnCode)%Z
      then (inr (Body resp), w')
      else (inl (UnexpectedStatus (StatusCode resp) (Body resp)), w')
  end.

(** Modelled from the spec: [genericJSONDataAPIGET], the collaborator's
    GET: it decodes the response body into the target and fails with the
    transport, status or decode error. *)
Definition genericJSONDataAPIGET {T : Type} `{Unmarshal T} (c : Client)
    (target : T) (urlString : string) (expectedReturnCode : Z) (w : World)
    : (T * option error) * World :=
  match exchange c (mkRequest GET urlString None) expectedReturnCode w with
  | (inl e, w') => ((target, Some e), w')
  | (inr body, w') => (unmarshal body target, w')
  end.

(** Modelled from the spec: [genericJSONDataAPIPatch], the collaborator's
    PATCH with a JSON payload; no body is decoded. *)
Definition genericJSONDataAPIPatch (c : Client) (urlString : string)
    (payload : JSON) (expectedReturnCode : Z) (w : World)
    : option error * World :=
  match exchange c (mkRequest PATCH urlString (Some payload))
                 expectedReturnCode w with
  | (inl e, w') => (Some e, w')
  | (inr _, w') => (None, w')
  end.

(** ** Identifier resolver *)

(** Modelled from the spec: [resolveDeviceIdentifierType], declared in
    another file.  An explicit type is returned unchanged; autodetection
    classifies by the structural test of the canonical ID shape, and
    anything that does not match is an alias. *)
Definition resolveDeviceIdentifierType (deviceIdentifier : string)
    (deviceIdentifierType : DeviceIdentifierType) : DeviceIdentifierType :=
  match deviceIdentifierType with
  | AutodiscoverDeviceIdentifier =>
      if IsValidAstarteDeviceID deviceIdentifier
      then AstarteDeviceID else AstarteDeviceAlias
  | _ => deviceIdentifierType
  end.

(** ** Device list paginator *)

(** Modelled from the spec: [HasNextPage], a pure read of the cursor's
    flag; it does not fetch. *)
Definition HasNextPage (d : DeviceListPaginator) : bool := hasNextPage d.

(** Modelled from the spec: [GetNextPage], whose source is in another
    file.  It issues one GET against the collection endpoint with the
    current query parameters and the configured page-size bound.  On
    success a continuation token is loaded into the query state, and its
    absence exhausts the cursor; on failure the cursor is not advanced.
    Advancing an exhausted cursor is answered with an explicit error and
    no fetch.  The result is the page, the error, and the paginator after
    the call. *)
Definition GetNextPage (d : DeviceListPaginator) (w : World)
    : ((list string * option error) * DeviceListPaginator) * World :=
  if negb (hasNextPage d) then (([], Some NoMorePages), d, w)
  else
    let query := <[limitParam := [Itoa (pageSize d)]]> (nextQuery d) in
    let callURL := setRawQuery (baseURL d) (Values_Encode query) in
    let '((page, err), w') :=
      genericJSONDataAPIGET (pagClient d) zeroDevicePage
                            (URL_String callURL) 200 w in
    match err with
    | Some e => (([], Some e), d, w')
    | None =>
        match pageNext page with
        | Some token =>
            ((pageData page, None),
             {| baseURL := baseURL d;
                nextQuery := <[tokenParam := [token]]> (nextQuery d);
                pageSize := pageSize d;
                pagClient := pagClient d;
                hasNextPage := true |},
             w')
        | None =>
            ((pageData page, None),
             {| baseURL := baseURL d;
                nextQuery := nextQuery d;
                pageSize := pageSize d;
                pagClient := pagClient d;
                hasNextPage := false |},
             w')
        end
    end.

(** ** The accessors of [appengine_devices.go] *)

(** [GetDeviceListPaginator].  On a parse error Go returns the zero
    [DeviceListPaginator{}] next to the error; no caller looks at it, and
    the embedding returns the error alone. *)
Definition GetDeviceListPaginator (s : AppEngineService) (realm : string)
    (pageSize : Z) : error + DeviceListPaginator :=
  match url_Parse (URL_String (appEngineURL s)) with
  | inl err => inl err
  | inr callURL =>
      let callURL :=
        setPath callURL
          (path.Join [Path callURL; "/v1/" +:+ realm +:+ "/devices"]) in
      let query : Values := ∅ in
      inr {| baseURL := callURL;
             nextQuery := query;
             pageSize := pageSize;
             pagClient := client s;
             hasNextPage := true |}
  end.

(** The [for hasNext := paginator.HasNextPage(); hasNext; ...] loop of
    [ListDevices].  The loop runs as long as the backend keeps handing out
    continuation tokens; [None] means it is still running after [fuel]
    iterations. *)
Fixpoint ListDevices_loop (fuel : nat) (paginator : DeviceListPaginator)
    (result : list string) (w : World)
    : option ((list string * option error) * World) :=
  match fuel with
  | O => None
  | S fuel' =>
      if HasNextPage paginator then
        let '(((page, err), paginator'), w') := GetNextPage paginator w in
        match err with
        | Some e => Some (([], Some e), w')
        | None => ListDevices_loop fuel' paginator' (result ++ page) w'
        end
      else Some ((result, None), w)
  end.

(** [ListDevices] *)
Definition ListDevices (fuel : nat) (s : AppEngineService) (realm : string)
    (w : World) : option ((list string * option error) * World) :=
  let result : list string := [] in
  match GetDeviceListPaginator s realm defaultPageSize with
  | inl err => Some ((result, Some err), w)
  | inr paginator => ListDevices_loop fuel paginator result w
  end.

(** [callURL, _ := url.Parse(s.appEngineURL.String())] followed by
    [callURL.Path = path.Join(callURL.Path, suffix)]: the parse error is
    dropped, so a failed parse leaves [callURL] nil and the assignment
    panics. *)
Definition callURLFor (s : AppEngineService) (suffix : string)
    : Outcome URL :=
  match url_Parse (URL_String (appEngineURL s)) with
  | inl _ => Panicked
  | inr callURL => Returned (setPath callURL (path.Join [Path callURL; suffix]))
  end.

(** [GetDevice] *)
Definition GetDevice (s : AppEngineService) (realm deviceIdentifier : string)
    (deviceIdentifierType : DeviceIdentifierType) (w : World)
    : Outcome ((DeviceDetails * option error) * World) :=
  let resolvedDeviceIdentifierType :=
    resolveDeviceIdentifierType deviceIdentifier deviceIdentifierType in
  match callURLFor s ("/v1/" +:+ realm +:+ "/" +:+
          devicePath deviceIdentifier resolvedDeviceIdentifierType) with
  | Panicked => Panicked
  | Returned callURL =>
      let deviceDetails := zeroDeviceDetails in
      Returned (genericJSONDataAPIGET (client s) deviceDetails
                                      (URL_String callURL) 200 w)
  end.

(** [GetDeviceIDFromAlias] *)
Definition GetDeviceIDFromAlias (s : AppEngineService)
    (realm deviceAlias : string) (w : World)
    : Outcome ((string * option error) * World) :=
  match GetDevice s realm deviceAlias AstarteDeviceAlias w with
  | Panicked => Panicked
  | Returned ((deviceDetails, err), w') =>
      match err with
      | Some e => Returned (("", Some e), w')
      | None => Returned ((DeviceID deviceDetails, None), w')
      end
  end.

(** [GetDeviceIDFromDeviceIdentifier] *)
Definition GetDeviceIDFromDeviceIdentifier (s : AppEngineService)
    (realm deviceIdentifier : string)
    (deviceIdentifierType : DeviceIdentifierType) (w : World)
    : Outcome ((string * option error) * World) :=
  let resolvedDeviceIdentifierType :=
    resolveDeviceIdentifierType deviceIdentifier deviceIdentifierType in
  match resolvedDeviceIdentifierType with
  | AstarteDeviceAlias => GetDeviceIDFromAlias s realm deviceIdentifier w
  | _ => Returned ((deviceIdentifier, None), w)
  end.

(** [ListDeviceInterfaces] *)
Definition ListDeviceInterfaces (s : AppEngineService)
    (realm deviceIdentifier : string)
    (deviceIdentifierType : DeviceIdentifierType) (w : World)
    : Outcome ((list string * option error) * World) :=
  let resolvedDeviceIdentifierType :=
    resolveDeviceIdentifierType deviceIdentifier deviceIdentifierType in
  match callURLFor s ("/v1/" +:+ realm +:+ "/" +:+
          devicePath deviceIdentifier resolvedDeviceIdentifierType +:+
          "/interfaces") with
  | Panicked => Panicked
  | Returned callURL =>
      let deviceInterfacesList : list string := [] in
      Returned (genericJSONDataAPIGET (client s) deviceInterfacesList
                                      (URL_String callURL) 200 w)
  end.

(** [ListDeviceAliases]; the [nil] map returned with an error reads as the
    empty map. *)
Definition ListDeviceAliases (s : AppEngineService) (realm deviceID : string)
    (w : World) : Outcome ((gmap string string * option error) * World) :=
  match GetDevice s realm deviceID AstarteDeviceID w with
  | Panicked => Panicked
  | Returned ((deviceDetails, err), w') =>
      match err with
      | Some e => Returned ((∅, Some e), w')
      | None => Returned ((Aliases deviceDetails, None), w')
      end
  end.

(** [AddDeviceAlias] *)
Definition AddDeviceAlias (s : AppEngineService)
    (realm deviceID aliasTag deviceAlias : string) (w : World)
    : Outcome (option error * World) :=
  match callURLFor s ("/v1/" +:+ realm +:+ "/devices/" +:+ deviceID) with
  | Panicked => Panicked
  | Returned callURL =>
      let payload :=
        JObject [("aliases", JObject [(aliasTag, JString deviceAlias)])] in
      Returned (genericJSONDataAPIPatch (client s) (URL_String callURL)
                                        payload 200 w)
  end.

(** [DeleteDeviceAlias]: the inner map is a [map[string]interface{}]
    holding [nil], so that the payload carries null rather than an empty
    string. *)
Definition DeleteDeviceAlias (s : AppEngineService)
    (realm deviceID aliasTag : string) (w : World)
    : Outcome (option error * World) :=
  match callURLFor s ("/v1/" +:+ realm +:+ "/devices/" +:+ deviceID) with
  | Panicked => Panicked
  | Returned callURL =>
      let payload := JObject [("aliases", JObject [(aliasTag, JNull)])] in
      Returned (genericJSONDataAPIPatch (client s) (URL_String callURL)
                                        payload 200 w)
  end.

(** [InhibitDevice] *)
Definition InhibitDevice (s : AppEngineService)
    (realm deviceIdentifier : string)
    (deviceIdentifierType : DeviceIdentifierType) (inhibit : bool)
    (w : World) : Outcome (option error * World) :=
  let resolvedDeviceIdentifierType :=
    resolveDeviceIdentifierType deviceIdentifier deviceIdentifierType in
  match callURLFor s ("/v1/" +:+ realm +:+ "/" +:+
          devicePath deviceIdentifier resolvedDeviceIdentifierType) with
  | Panicked => Panicked
  | Returned callURL =>
      let payload := JObject [("credentials_inhibited", JBool inhibit)] in
      Returned (genericJSONDataAPIPatch (client s) (URL_String callURL)
                                        payload 200 w)
  end.

(** [GetDevicesStats] *)
Definition GetDevicesStats (s : AppEngineService) (realm : string)
    (w : World) : Outcome ((DevicesStats * option error) * World) :=
  match callURLFor s ("/v1/" +:+ realm +:+ "/stats/devices") with
  | Panicked => Panicked
  | Returned callURL =>
      let deviceStats := zeroDevicesStats in
      Returned (genericJSONDataAPIGET (client s) deviceStats
                                      (URL_String callURL) 200 w)
  end.

(** [ListDeviceMetadata] *)
Definition ListDeviceMetadata (s : AppEngineService)
    (realm deviceIdentifier : string)
    (deviceIdentifierType : DeviceIdentifierType) (w : World)
    : Outcome ((gmap string string * option error) * World) :=
  match GetDevice s realm deviceIdentifier deviceIdentifierType w with
  | Panicked => Panicked
  | Returned ((deviceDetails, err), w') =>
      match err with
      | Some e => Returned ((∅, Some e), w')
      | None => Returned ((Metadata deviceDetails, None), w')
      end
  end.

(** [SetDeviceMetadata] *)
Definition SetDeviceMetadata (s : AppEngineService)
    (realm deviceIdentifier : string)
    (deviceIdentifierType : DeviceIdentifierType)
    (metadataKey metadataValue : string) (w : World)
    : Outcome (option error * World) :=
  let resolvedDeviceIdentifierType :=
    resolveDeviceIdentifierType deviceIdentifier deviceIdentifierType in
  match callURLFor s ("/v1/" +:+ realm +:+ "/" +:+
          devicePath deviceIdentifier resolvedDeviceIdentifierType) with
  | Panicked => Panicked
  | Returned callURL =>
      let payload :=
        JObject [("metadata", JObject [(metadataKey, JString metadataValue)])] in
      Returned (genericJSONDataAPIPatch (client s) (URL_String callURL)
                                        payload 200 w)
  end.

(** [DeleteDeviceMetadata] *)
Definition DeleteDeviceMetadata (s : AppEngineService)
    (realm deviceIdentifier : string)
    (deviceIdentifierType : DeviceIdentifierType) (metadataKey : string)
    (w : World) : Outcome (option error * World) :=
  let resolvedDeviceIdentifierType :=
    resolveDeviceIdentifierType deviceIdentifier deviceIdentifierType in
  match callURLFor s ("/v1/" +:+ realm +:+ "/" +:+
          devicePath deviceIdentifier resolvedDeviceIdentifierType) with
  | Panicked => Panicked
  | Returned callURL =>
      let payload := JObject [("metadata", JObject [(metadataKey, JNull)])] in
      Returned (genericJSONDataAPIPatch (client s) (URL_String callURL)
                                        payload 200 w)
  end.

(** ** Driving a paginator by hand *)

(** What a caller does with [HasNextPage] and [GetNextPage]: fetch until
    the flag drops or a fetch fails, keeping the pages in arrival order.
    The result is the pages fetched, the error that stopped the traversal
    (if any), and the paginator and world at the end; [None] means the
    traversal is still running after [fuel] fetches. *)
Fixpoint drive (fuel : nat) (d : DeviceListPaginator) (w : World)
    : option (list (list string) * option error * DeviceListPaginator * World) :=
  match fuel with
  | O => None
  | S fuel' =>
      if HasNextPage d then
        let '(((page, err), d'), w') := GetNextPage d w in
        match err with
        | Some e => Some ([], Some e, d', w')
        | None =>
            match drive fuel' d' w' with
            | Some (pages, r, d'', w'') => Some (page :: pages, r, d'', w'')
            | None => None
            end
        end
      else Some ([], None, d, w)
  end.

End Client.

(** ** Vocabulary of the properties *)

(** Go's [strings.HasSuffix], as a relation. *)
Definition HasSuffix (s tail : string) : Prop :=
  list_ascii_of_string tail `suffix_of` list_ascii_of_string s.

(** [s] does not contain the byte [c]. *)
Definition noChar (c : ascii) (s : string) : bool :=
  forallb (fun x => negb (Ascii.eqb x c)) (list_ascii_of_string s).

Definition noSlash (s : string) : bool :=
  forallb (fun c => negb (path.isSlash c)) (list_ascii_of_string s).

(** A string that is one path element as [path.Clean] sees it: not empty,
    not [.] or [..], and free of slashes. *)
Definition isCleanSegment (s : string) : bool :=
  negb (String.eqb s "") && negb (String.eqb s ".")
  && negb (String.eqb s "..") && noSlash s.

(** A path that is empty or absolute, as the path of a URL with a host
    is. *)
Definition emptyOrRooted (base : string) : bool :=
  match base with
  | EmptyString => true
  | String c _ => path.isSlash c
  end.

(** The collection path below the service's base path, without its
    leading slash. *)
Definition tailPath (realm : string) : string :=
  "v1/" +:+ realm +:+ "/devices".

(** An output buffer of [path.Clean] on a rooted path: its first byte
    (the last of the reversed list) is the root slash. *)
Definition rootedOut (out : list ascii) : Prop :=
  exists l, out = (l ++ ["/"%char])%list.

(** An output buffer that holds a path ending in the collection path. *)
Definition endsWithTail (realm : string) (out : list ascii) : Prop :=
  exists X, string_of_list_ascii (rev out) = X +:+ "/" +:+ tailPath realm.

(** [ceil(n / p)] *)
Definition ceilDiv (n p : nat) : nat := (n + p - 1) / p.

(** The cursor a backend hands out for the devices from position [k] on;
    the first page is asked for without a token. *)
Definition cursorAt (token : nat -> string) (k : nat) : option string :=
  match k with
  | O => None
  | S _ => Some (token k)
  end.

(** The query of a page fetch with bound [P] at a cursor. *)
Definition pageQuery (P : Z) (cursor : option string) : Values :=
  <[limitParam := [Itoa P]]>
    (match cursor with
     | Some t => <[tokenParam := [t]]> ∅
     | None => ∅
     end).

Section Backends.
Context `{Env}.

(** The request of a page fetch against [collection] with query [q]. *)
Definition pageRequest (collection : URL) (q : Values) : Request :=
  mkRequest GET (URL_String (setRawQuery collection (Values_Encode q))) None.

(** A fixed backend holding the devices [devs]: asked at [collection] for
    at most [P] devices from position [k], it answers 200 with a body
    that decodes to the next [P] devices in its order, and with a
    continuation token exactly when devices remain after them.  Serving
    does not change its state [b]. *)
Definition servesDevices (devs : list string) (token : nat -> string)
    (c : Client) (collection : URL) (b : Server) : Prop :=
  forall (P : Z) (k : nat), (1 <= P)%Z ->
    exists body,
      roundTrip c (pageRequest collection (pageQuery P (cursorAt token k))) b
        = (inr (mkResponse 200 body), b)
      /\ unmarshal body zeroDevicePage
         = ({| pageData := take (Z.to_nat P) (drop k devs);
               pageNext :=
                 if (k + Z.to_nat P <? List.length devs)%nat
                 then Some (token (k + Z.to_nat P)) else None |},
            None).

(** A paginator of the traversal of [collection] with page size [P],
    standing before position [k] with a next page to fetch. *)
Definition standsAt (token : nat -> string) (c : Client) (collection : URL)
    (P : Z) (k : nat) (d : DeviceListPaginator) : Prop :=
  hasNextPage d = true
  /\ baseURL d = collection
  /\ pagClient d = c
  /\ pageSize d = P
  /\ nextQuery d = match cursorAt token k with
                   | Some t => <[tokenParam := [t]]> ∅
                   | None => ∅
                   end.

(** A page fetch of a traversal with page size [P]: a GET of the
    collection whose query carries [P] as the page-size bound. *)
Definition boundedFetch (P : Z) (collection : URL) (req : Request) : Prop :=
  exists q : Values,
    q !! limitParam = Some [Itoa P] /\ req = pageRequest collection q.

(** The URL an accessor calls when the service URL parses to [callURL]:
    the formatted path joined onto the base path. *)
Definition targetURL (callURL : URL) (formatted : string) : string :=
  URL_String (setPath callURL (path.Join [Path callURL; formatted])).

(** The requests a call made: what the world after it has sent beyond the
    world before it. *)
Definition requestsOf {A : Type} (w : World) (o : Outcome (A * World))
    : option (list Request) :=
  match o with
  | Returned (_, w') => Some (drop (List.length (sent w)) (sent w'))
  | Panicked => None
  end.

(** The error a collaborator call surfaces for the transport's answer
    [r] when 200 is the expected status; [onOK] is what happens to a 200
    body. *)
Definition surfaced (r : error + Response) (onOK : JSON -> option error)
    : option error :=
  match r with
  | inl e => Some e
  | inr resp =>
      if (StatusCode resp =? 200)%Z then onOK (Body resp)
      else Some (UnexpectedStatus (StatusCode resp) (Body resp))
  end.

(** An operation that makes exactly one exchange, with 200 as the only
    success status, and returns the collaborator's error as it is. *)
Definition expects200 {A : Type} (c : Client)
    (op : World -> Outcome (A * World)) (errOf : A -> option error)
    (onOK : JSON -> option error) : Prop :=
  forall w, exists req a,
    op w = Returned (a, {| backend := (roundTrip c req (backend w)).2;
                           sent := sent w ++ [req] |})
    /\ errOf a = surfaced (roundTrip c req (backend w)).1 onOK.

End Backends.

(** ** An in-memory fake backend

    A concrete environment: URLs are rendered as [path?query], the query
    as [limit=P&from_token=K], and the backend serves a fixed device list
    in pages, handing out the position of the next page as the token.  It
    can be told to answer 500 at one position; requests without a page
    query are answered 404. *)
Module Fake.

Fixpoint splitOn (sep : ascii) (s : string) : string * option string :=
  match s with
  | EmptyString => ("", None)
  | String c s' =>
      if Ascii.eqb c sep then ("", Some s')
      else let '(a, b) := splitOn sep s' in (String c a, b)
  end.

Fixpoint stripPrefix (p s : string) : option string :=
  match p, s with
  | EmptyString, _ => Some s
  | String a p', String b s' =>
      if Ascii.eqb a b then stripPrefix p' s' else None
  | String _ _, EmptyString => None
  end.

(** [strconv.Atoi] *)
Definition Atoi (s : string) : option Z :=
  match NilZero.int_of_string s with
  | Some d => Some (Z.of_int d)
  | None => None
  end.

Record Backend := mkBackend {
  devices : list string;
  failingOffset : option nat
}.

Definition token (k : nat) : string := Itoa (Z.of_nat k).

Definition pageBody (ids : list string) (next : option string) : JSON :=
  JObject [("data", JArray (map JString ids));
           ("next", match next with Some t => JString t | None => JNull end)].

Fixpoint strings (items : list JSON) : option (list string) :=
  match items with
  | [] => Some []
  | JString s :: items' =>
      match strings items' with
      | Some l => Some (s :: l)
      | None => None
      end
  | _ => None
  end.

Definition decodePage (body : JSON) (target : DevicePage)
    : DevicePage * option error :=
  match body with
  | JObject [("data", JArray items); ("next", next)] =>
      match strings items with
      | Some ids =>
          ({| pageData := ids;
              pageNext := match next with JString t => Some t | _ => None end |},
           None)
      | None => (target, Some (DecodeError "data"))
      end
  | _ => (target, Some (DecodeError "page"))
  end.

(** The query of a page request: the bound and the position to serve
    from. *)
Definition readQuery (rawQuery : string) : option (Z * Z) :=
  match stripPrefix "limit=" rawQuery with
  | None => None
  | Some rest =>
      let '(limit, more) := splitOn "&" rest in
      let from :=
        match more with
        | None => Some 0%Z
        | Some m =>
            match stripPrefix "from_token=" m with
            | Some t => Atoi t
            | None => None
            end
        end in
      match Atoi limit, from with
      | Some p, Some k => Some (p, k)
      | _, _ => None
      end
  end.

Definition serve (req : Request) (b : Backend)
    : (error + Response) * Backend :=
  match splitOn "?" (reqURL req) with
  | (_, Some rawQuery) =>
      match readQuery rawQuery with
      | Some (p, k) =>
          let p := Z.to_nat p in
          let k := Z.to_nat k in
          if decide (failingOffset b = Some k) then
            (inr (mkResponse 500 JNull), b)
          else
            (inr (mkResponse 200
                    (pageBody (take p (drop k (devices b)))
                       (if (k + p <? List.length (devices b))%nat
                        then Some (token (k + p)) else None))), b)
      | None => (inr (mkResponse 400 JNull), b)
      end
  | (_, None) => (inr (mkResponse 404 JNull), b)
  end.

Definition encodeQuery (q : Values) : string :=
  "limit=" +:+
  match q !! limitParam with Some (v :: _) => v | _ => "" end +:+
  match q !! tokenParam with
  | Some (t :: _) => "&from_token=" +:+ t
  | _ => ""
  end.

#[global] Instance env : Env := {|
  Client := unit;
  Server := Backend;
  roundTrip := fun _ => serve;
  url_Parse := fun s =>
    match splitOn "?" s with
    | (p, Some q) => inr (mkURL "" "" p q)
    | (p, None) => inr (mkURL "" "" p "")
    end;
  URL_String := fun u =>
    if String.eqb (RawQuery u) "" then Path u
    else Path u +:+ "?" +:+ RawQuery u;
  Values_Encode := encodeQuery;
  DevicesStats := unit;
  zeroDevicesStats := tt;
  unmarshalDeviceDetails := fun _ t => (t, None);
  unmarshalStrings := fun _ t => (t, None);
  unmarshalDevicesStats := fun _ t => (t, None);
  unmarshalDevicePage := decodePage;
  IsValidAstarteDeviceID := fun s => (String.length s =? 22)%nat;
  devicePath := fun id t =>
    match t with
    | AstarteDeviceAlias => "devices-by-alias/" +:+ id
    | _ => "devices/" +:+ id
    end;
  defaultPageSize := 2
|}.

Definition service : AppEngineService :=
  {| appEngineURL := mkURL "" "" "/appengine" ""; client := tt |}.

Definition world (devs : list string) (failing : option nat) : World :=
  {| backend := mkBackend devs failing; sent := [] |}.

(** The paginator [GetDeviceListPaginator service "test" P] returns. *)
Definition paginator (P : Z) : DeviceListPaginator :=
  {| baseURL := mkURL "" "" "/appengine/v1/test/devices" "";
     nextQuery := ∅;
     pageSize := P;
     pagClient := tt;
     hasNextPage := true |}.

End Fake.

(** ** Vocabulary of the further properties *)

(** The main loop of [path.Clean] with the whole state it ends in, the
    buffer and [dotdot]; the cases are those of [path.cleanLoop]. *)
Fixpoint cleanState (fuel : nat) (rooted : bool) (rest : string)
    (out : list ascii) (dotdot : nat) : list ascii * nat :=
  match fuel, rest with
  | O, _ => (out, dotdot)
  | _, EmptyString => (out, dotdot)
  | S fuel', String c r1 =>
      if path.isSlash c then cleanState fuel' rooted r1 out dotdot
      else if path.isDot c && path.atEndOrSlash r1 then
        cleanState fuel' rooted r1 out dotdot
      else if path.isDot c && match r1 with
                              | String c1 r2 =>
                                  path.isDot c1 && path.atEndOrSlash r2
                              | EmptyString => false
                              end
      then
        let r2 := match r1 with String _ r2 => r2 | EmptyString => r1 end in
        if (dotdot <? List.length out)%nat then
          match out with
          | last :: out' =>
              cleanState fuel' rooted r2 (path.backtrack last out' dotdot)
                         dotdot
          | [] => cleanState fuel' rooted r2 out dotdot
          end
        else if negb rooted then
          let out1 :=
            if (0 <? List.length out)%nat then "/"%char :: out else out in
          let out2 := "."%char :: "."%char :: out1 in
          cleanState fuel' rooted r2 out2 (List.length out2)
        else cleanState fuel' rooted r2 out dotdot
      else
        let '(rest', out2) :=
          path.copyElement rest (path.pushSlash rooted out) in
        cleanState fuel' rooted rest' out2 dotdot
  end.

(** What the loop keeps between iterations: [dotdot] lies within the
    buffer, and on a rooted path it is 1 and the buffer starts with the
    root slash. *)
Definition cleanInv (rooted : bool) (out : list ascii) (dotdot : nat)
    : Prop :=
  (dotdot <= List.length out)%nat
  /\ (rooted = true -> dotdot = 1%nat /\ rootedOut out).

(** The path [/s1/s2/.../sn]. *)
Fixpoint slashPath (segs : list string) : string :=
  match segs with
  | [] => ""
  | s :: segs' => String "/" (s +:+ slashPath segs')
  end.


Section MoreBackends.
Context `{Env}.

(** A backend that answers every request with a page and a continuation
    token. *)
Definition endlessBackend (c : Client) : Prop :=
  forall (req : Request) (b : Server),
    exists body b' page token,
      roundTrip c req b = (inr (mkResponse 200 body), b')
      /\ unmarshal body zeroDevicePage
         = ({| pageData := page; pageNext := Some token |}, None).

(** The error of a [(value, error)] result of the accessors. *)
Definition errorOf {A : Type} (o : Outcome ((A * option error) * World))
    : option error :=
  match o with
  | Returned ((_, err), _) => err
  | Panicked => None
  end.

(** What the lookup of a device by alias returns for the transport's
    answer [r] to its request: the [DeviceID] of the details decoded from
    a 200 body, and the empty string with the error after a transport
    failure, any other status, or a body that does not decode. *)
Definition lookupAnswer (r : error + Response) : string * option error :=
  match r with
  | inl e => ("", Some e)
  | inr resp =>
      if (StatusCode resp =? 200)%Z then
        match unmarshal (Body resp) zeroDeviceDetails with
        | (_, Some e) => ("", Some e)
        | (deviceDetails, None) => (DeviceID deviceDetails, None)
        end
      else ("", Some (UnexpectedStatus (StatusCode resp) (Body resp)))
  end.

End MoreBackends.

(** The fake environment with a service URL that [url.Parse] rejects. *)
Module Broken.

Definition env : Env := {|
  Client := unit;
  Server := Fake.Backend;
  roundTrip := fun _ => Fake.serve;
  url_Parse := fun s => inl (ParseError s);
  URL_String := fun u =>
    if String.eqb (RawQuery u) "" then Path u
    else Path u +:+ "?" +:+ RawQuery u;
  Values_Encode := Fake.encodeQuery;
  DevicesStats := unit;
  zeroDevicesStats := tt;
  unmarshalDeviceDetails := fun _ t => (t, None);
  unmarshalStrings := fun _ t => (t, None);
  unmarshalDevicesStats := fun _ t => (t, None);
  unmarshalDevicePage := Fake.decodePage;
  IsValidAstarteDeviceID := fun s => (String.length s =? 22)%nat;
  devicePath := fun id t =>
    match t with
    | AstarteDeviceAlias => "devices-by-alias/" +:+ id
    | _ => "devices/" +:+ id
    end;
  defaultPageSize := 2
|}.

Definition service : @AppEngineService env :=
  @mkAppEngineService env (mkURL "" "" "/appengine" "") tt.

Definition world : @World env :=
  @mkWorld env (Fake.mkBackend ["a"; "b"] None) [].

End Broken.

(** The fake environment with a backend that never runs out of pages. *)
Module Endless.

Definition serve (req : Request) (b : Fake.Backend)
    : (error + Response) * Fake.Backend :=
  (inr (mkResponse 200 (Fake.pageBody ["a"] (Some "more"))), b).

Definition env : Env := {|
  Client := unit;
  Server := Fake.Backend;
  roundTrip := fun _ => serve;
  url_Parse := fun s =>
    match Fake.splitOn "?" s with
    | (p, Some q) => inr (mkURL "" "" p q)
    | (p, None) => inr (mkURL "" "" p "")
    end;
  URL_String := fun u =>
    if String.eqb (RawQuery u) "" then Path u
    else Path u +:+ "?" +:+ RawQuery u;
  Values_Encode := Fake.encodeQuery;
  DevicesStats := unit;
  zeroDevicesStats := tt;
  unmarshalDeviceDetails := fun _ t => (t, None);
  unmarshalStrings := fun _ t => (t, None);
  unmarshalDevicesStats := fun _ t => (t, None);
  unmarshalDevicePage := Fake.decodePage;
  IsValidAstarteDeviceID := fun s => (String.length s =? 22)%nat;
  devicePath := fun id t =>
    match t with
    | AstarteDeviceAlias => "devices-by-alias/" +:+ id
    | _ => "devices/" +:+ id
    end;
  defaultPageSize := 2
|}.

Definition service : @AppEngineService env :=
  @mkAppEngineService env (mkURL "" "" "/appengine" "") tt.

Definition world : @World env :=
  @mkWorld env (Fake.mkBackend [] None) [].

End Endless.

(** The fake service with a slash at the end of its path. *)
Module FakeSlash.

Definition service : AppEngineService :=
  {| appEngineURL := mkURL "" "" "/appengine/" ""; client := tt |}.

End FakeSlash.

(** The fake environment with a device registry behind the detail
    endpoint: the backend maps the URLs it knows to device IDs, answers
    200 with the device ID for such a URL and 404 for any other, and the
    details are decoded from that body. *)
Module Registry.

Definition Backend := list (string * string).

Fixpoint find (u : string) (b : Backend) : option string :=
  match b with
  | [] => None
  | (k, id) :: rest => if String.eqb k u then Some id else find u rest
  end.

Definition serve (req : Request) (b : Backend)
    : (error + Response) * Backend :=
  match find (reqURL req) b with
  | Some id => (inr (mkResponse 200 (JString id)), b)
  | None => (inr (mkResponse 404 JNull), b)
  end.

Definition decodeDetails : Unmarshal DeviceDetails := fun body target =>
  match body with
  | JString id =>
      ({| DeviceID := id; Aliases := Aliases target;
          Metadata := Metadata target;
          CredentialsInhibited := CredentialsInhibited target |}, None)
  | _ => (target, Some (DecodeError "device"))
  end.

Definition env : Env := {|
  Client := unit;
  Server := Backend;
  roundTrip := fun _ => serve;
  url_Parse := fun s =>
    match Fake.splitOn "?" s with
    | (p, Some q) => inr (mkURL "" "" p q)
    | (p, None) => inr (mkURL "" "" p "")
    end;
  URL_String := fun u =>
    if String.eqb (RawQuery u) "" then Path u
    else Path u +:+ "?" +:+ RawQuery u;
  Values_Encode := Fake.encodeQuery;
  DevicesStats := unit;
  zeroDevicesStats := tt;
  unmarshalDeviceDetails := decodeDetails;
  unmarshalStrings := fun _ t => (t, None);
  unmarshalDevicesStats := fun _ t => (t, None);
  unmarshalDevicePage := Fake.decodePage;
  IsValidAstarteDeviceID := fun s => (String.length s =? 22)%nat;
  devicePath := fun id t =>
    match t with
    | AstarteDeviceAlias => "devices-by-alias/" +:+ id
    | _ => "devices/" +:+ id
    end;
  defaultPageSize := 2
|}.

Definition service : @AppEngineService env :=
  @mkAppEngineService env (mkURL "" "" "/appengine" "") tt.

(** Two aliases are registered; the second has the shape of a device
    ID. *)
Definition registered : Backend :=
  [("/appengine/v1/test/devices-by-alias/my-alias",
    "0123456789012345678901");
   ("/appengine/v1/test/devices-by-alias/abcdefghijklmnopqrstuv",
    "9876543210987654321098")].

Definition world : @World env := @mkWorld env registered [].

End Registry.

(** * Properties *)

(** ** Go's [path] package *)

(** Rows of the table in Go's own [path] tests, as a check of the
    embedding. *)
Example Clean_go_table :
  map path.Clean
    ["abc//def//ghi"; "abc/def/../ghi/../jkl"; "/../abc"; "../../abc";
     "abc/./../def"; "abc/../../././../def"; ""; "/"; "abc/def/../../..";
     "/abc/def/../../.."; "abc/"]
  = ["abc/def/ghi"; "abc/jkl"; "/abc"; "../../abc"; "def"; "../../def";
     "."; "/"; ".."; "/"; "abc"].
Proof. reflexivity. Qed.

Example Join_go_table :
  map path.Join [["a"; "b"]; ["a"; ""]; [""; "b"]; ["/"; "a"]; ["a/"; "b"];
                 ["a/"; ""]; [""; ""]; []]
  = ["a/b"; "a"; "b"; "/a"; "a/b"; "a"; ""; ""].
Proof. reflexivity. Qed.


(** *** Strings *)

Lemma string_app_cons x (a b : string) :
  String x a +:+ b = String x (a +:+ b).
Proof. reflexivity. Qed.

Lemma string_app_assoc (a b c : string) :
  (a +:+ b) +:+ c = a +:+ (b +:+ c).
Proof.
  induction a as [|x a IH]; [done|]. by rewrite !string_app_cons, IH.
Qed.

Lemma string_app_nil_r (a : string) : a +:+ "" = a.
Proof.
  induction a as [|x a IH]; [done|]. by rewrite string_app_cons, IH.
Qed.

Lemma string_length_app (a b : string) :
  String.length (a +:+ b) = (String.length a + String.length b)%nat.
Proof.
  induction a as [|x a IH]; [done|].
  rewrite string_app_cons. simpl. by rewrite IH.
Qed.

Lemma string_of_list_ascii_app (l1 l2 : list ascii) :
  string_of_list_ascii (l1 ++ l2) =
  string_of_list_ascii l1 +:+ string_of_list_ascii l2.
Proof.
  induction l1 as [|x l1 IH]; [done|].
  simpl. by rewrite string_app_cons, IH.
Qed.

Lemma list_ascii_of_string_app (a b : string) :
  list_ascii_of_string (a +:+ b) =
  (list_ascii_of_string a ++ list_ascii_of_string b)%list.
Proof.
  induction a as [|x a IH]; [done|].
  rewrite string_app_cons. simpl. by rewrite IH.
Qed.

Lemma HasSuffix_app (pre tail : string) : HasSuffix (pre +:+ tail) tail.
Proof.
  unfold HasSuffix. rewrite list_ascii_of_string_app. by apply suffix_app_r.
Qed.

(** *** The clean loop on the collection path *)

Module PathFacts.
Import path.

Lemma isDot_eq c : isDot c = true -> c = "."%char.
Proof. apply Ascii.eqb_eq. Qed.

Lemma isSlash_eq c : isSlash c = true -> c = "/"%char.
Proof. apply Ascii.eqb_eq. Qed.

Lemma noSlash_cons c s :
  noSlash (String c s) = true -> isSlash c = false /\ noSlash s = true.
Proof.
  unfold noSlash. simpl. intros [Hc Hs]%andb_prop.
  split; [by destruct (isSlash c)|done].
Qed.

Lemma copyElement_cons c rest out :
  isSlash c = false ->
  copyElement (String c rest) out = copyElement rest (c :: out).
Proof. intros Hc. simpl. by rewrite Hc. Qed.

(** An element without slashes is copied whole. *)
Lemma copyElement_noSlash seg rest out :
  noSlash seg = true -> atEndOrSlash rest = true ->
  copyElement (seg +:+ rest) out
  = (rest, (rev (list_ascii_of_string seg) ++ out)%list).
Proof.
  revert out. induction seg as [|c seg IH]; intros out Hs Hr.
  - change ("" +:+ rest) with rest.
    destruct rest as [|c r]; [done|]. simpl in *. by rewrite Hr.
  - destruct (noSlash_cons _ _ Hs) as [Hc Hseg].
    rewrite string_app_cons, copyElement_cons, IH by done.
    simpl. by rewrite <- app_assoc.
Qed.

(** Copying stops at the first slash, so it never runs past a slash that
    follows a prefix. *)
Lemma copyElement_prefix pre tl out c :
  isSlash c = true ->
  exists pre' seg,
    copyElement (pre +:+ String c tl) out
    = (pre' +:+ String c tl, (seg ++ out)%list)
    /\ (String.length pre' <= String.length pre)%nat.
Proof.
  intros Hc. revert out. induction pre as [|a pre IH]; intros out.
  - exists "", []. change ("" +:+ String c tl) with (String c tl).
    simpl. rewrite Hc. split; [done|lia].
  - rewrite string_app_cons. destruct (isSlash a) eqn:Ha.
    + exists (String a pre), []. simpl. rewrite Ha. split; [done|lia].
    + rewrite copyElement_cons by done.
      destruct (IH (a :: out)) as (pre' & seg & -> & Hl).
      exists pre', (seg ++ [a])%list. rewrite <- app_assoc.
      split; [done|simpl; lia].
Qed.

Lemma copyElement_length rest out :
  (String.length (copyElement rest out).1 <= String.length rest)%nat.
Proof.
  revert out. induction rest as [|c rest IH]; intros out; [done|].
  cbn [copyElement]. destruct (isSlash c); [done|].
  specialize (IH (c :: out)). cbn [String.length]. lia.
Qed.

(** The loop stops by [r < n] before the fuel runs out: any fuel of at
    least the remaining length gives the same buffer. *)
Lemma cleanLoop_fuel fuel fuel' rooted rest out dotdot :
  (String.length rest <= fuel)%nat -> (String.length rest <= fuel')%nat ->
  cleanLoop fuel rooted rest out dotdot
  = cleanLoop fuel' rooted rest out dotdot.
Proof.
  revert fuel' rest out dotdot.
  induction fuel as [|fuel IH]; intros fuel' rest out dotdot Hf Hf'.
  { destruct rest; [by destruct fuel'|cbn in Hf; lia]. }
  destruct rest as [|c r1]; [by destruct fuel'|].
  destruct fuel' as [|fuel']; [cbn in Hf'; lia|].
  cbn [String.length] in Hf, Hf'. cbn [cleanLoop].
  destruct (isSlash c) eqn:Hc; [apply IH; lia|].
  destruct (isDot c && atEndOrSlash r1); [apply IH; lia|].
  destruct (isDot c && _) eqn:Hdd.
  - destruct r1 as [|c1 r2]; [by rewrite andb_false_r in Hdd|].
    cbn [String.length] in Hf, Hf'.
    destruct (dotdot <? List.length out)%nat.
    + destruct out; apply IH; lia.
    + destruct (negb rooted); apply IH; lia.
  - pose proof (copyElement_length r1 (c :: pushSlash rooted out)) as Hlen.
    cbn [copyElement]. rewrite Hc.
    destruct (copyElement r1 (c :: pushSlash rooted out)) as [rest' out2].
    cbn [fst] in Hlen. apply IH; lia.
Qed.

(** A clean segment is neither skipped nor treated as [.] or [..]: it
    takes the default case of the loop. *)
Lemma cleanLoop_element fuel rooted seg rest out dotdot :
  isCleanSegment seg = true -> atEndOrSlash rest = true ->
  cleanLoop (S fuel) rooted (seg +:+ rest) out dotdot =
  cleanLoop fuel rooted rest
    (rev (list_ascii_of_string seg) ++ pushSlash rooted out)%list dotdot.
Proof.
  unfold isCleanSegment. intros Hseg Hrest.
  apply andb_prop in Hseg as [Hseg Hns].
  apply andb_prop in Hseg as [Hseg Hdd].
  apply andb_prop in Hseg as [Hne Hd].
  destruct seg as [|c seg]; [done|].
  pose proof (copyElement_noSlash (String c seg) rest) as Hcopy.
  destruct (noSlash_cons _ _ Hns) as [Hc Hseg'].
  rewrite string_app_cons in *. cbn [cleanLoop]. rewrite Hc.
  assert (isDot c && atEndOrSlash (seg +:+ rest) = false) as ->.
  { destruct (isDot c) eqn:Hdot; [|done]. apply isDot_eq in Hdot as ->.
    destruct seg as [|c1 seg]; [done|]. rewrite string_app_cons. simpl.
    by destruct (noSlash_cons _ _ Hseg') as [-> _]. }
  assert (isDot c && match seg +:+ rest with
                     | String c1 r2 => isDot c1 && atEndOrSlash r2
                     | EmptyString => false
                     end = false) as ->.
  { destruct (isDot c) eqn:Hdot; [|done]. apply isDot_eq in Hdot as ->.
    destruct seg as [|c1 seg].
    - change ("" +:+ rest) with rest.
      destruct rest as [|c1 rest]; [done|]. simpl in Hrest.
      apply isSlash_eq in Hrest as ->. done.
    - rewrite string_app_cons.
      destruct (isDot c1) eqn:Hdot1; [|done]. apply isDot_eq in Hdot1 as ->.
      destruct seg as [|c2 seg]; [done|]. rewrite string_app_cons. simpl.
      destruct (noSlash_cons _ _ Hseg') as [_ H2].
      by destruct (noSlash_cons _ _ H2) as [-> _]. }
  rewrite Hcopy by done. done.
Qed.

Lemma cleanLoop_slash fuel rooted rest out dotdot :
  cleanLoop (S fuel) rooted (String "/" rest) out dotdot =
  cleanLoop fuel rooted rest out dotdot.
Proof. reflexivity. Qed.

Lemma rootedOut_cons c out : rootedOut out -> rootedOut (c :: out).
Proof. intros [l ->]. by exists (c :: l). Qed.

Lemma rootedOut_app l out : rootedOut out -> rootedOut (l ++ out)%list.
Proof. intros [l' ->]. exists (l ++ l')%list. by rewrite app_assoc. Qed.

Lemma rootedOut_tail c out :
  rootedOut (c :: out) -> (1 < List.length (c :: out))%nat -> rootedOut out.
Proof.
  intros [l Hl] Hlen. destruct l as [|a l]; simplify_eq/=.
  - simpl in Hlen. lia.
  - by exists l.
Qed.

(** On a rooted path [..] never removes the root slash. *)
Lemma backtrack_rooted pending out :
  rootedOut out -> rootedOut (backtrack pending out 1).
Proof.
  revert pending. induction out as [|c out IH]; intros pending Hr; [done|].
  cbn [backtrack].
  destruct ((1 <? List.length (c :: out))%nat) eqn:Hlen; [|done].
  destruct (negb (isSlash pending)); [|done].
  cbn [andb]. apply IH. apply Nat.ltb_lt in Hlen. eauto using rootedOut_tail.
Qed.

Lemma pushSlash_long out :
  (2 <= List.length out)%nat -> pushSlash true out = "/"%char :: out.
Proof.
  intros Hl. unfold pushSlash.
  destruct (Nat.eqb_spec (List.length out) 1) as [Heq|_]; [lia|done].
Qed.

Lemma pushSlash_rooted out :
  rootedOut out ->
  exists X, string_of_list_ascii (rev (pushSlash true out)) = X +:+ "/".
Proof.
  intros [l ->]. unfold pushSlash.
  destruct (Nat.eqb_spec (List.length (l ++ ["/"%char])) 1) as [Heq|_].
  - rewrite length_app in Heq. simpl in Heq.
    destruct l; [|simpl in Heq; lia]. by exists "".
  - cbn [andb orb negb rev]. rewrite string_of_list_ascii_app.
    by eexists.
Qed.

Section Tail.
Variable realm : string.
Hypothesis realm_clean : isCleanSegment realm = true.

Lemma tailPath_length : (11 <= String.length (tailPath realm))%nat.
Proof. unfold tailPath. rewrite !string_length_app. simpl. lia. Qed.

(** Once the loop stands at the collection path with a rooted buffer, the
    three elements are appended as they are. *)
Lemma cleanLoop_tail fuel out :
  rootedOut out -> (5 <= fuel)%nat ->
  endsWithTail realm (cleanLoop fuel true (tailPath realm) out 1).
Proof.
  intros Hr Hf. do 5 (destruct fuel as [|fuel]; [lia|]). clear Hf.
  unfold tailPath.
  rewrite (cleanLoop_element _ _ "v1" ("/" +:+ realm +:+ "/devices")) by done.
  change ("/" +:+ realm +:+ "/devices")
    with (String "/" (realm +:+ "/devices")).
  rewrite cleanLoop_slash.
  rewrite (cleanLoop_element _ _ realm "/devices") by done.
  change "/devices" with (String "/" ("devices" +:+ "")) at 1.
  rewrite cleanLoop_slash.
  rewrite (cleanLoop_element _ _ "devices" "") by done.
  rewrite (pushSlash_long (_ ++ pushSlash true out))
    by (rewrite length_app; cbn; lia).
  rewrite (pushSlash_long (_ ++ _ :: _))
    by (rewrite !length_app; cbn; lia).
  destruct (pushSlash_rooted out Hr) as [X HX].
  assert (forall o, cleanLoop fuel true "" o 1 = o) as -> by (by destruct fuel).
  exists X.
  repeat (progress (rewrite ?rev_app_distr, ?string_of_list_ascii_app,
                      ?rev_involutive, ?string_of_list_ascii_of_string;
                    cbn [rev])).
  rewrite HX. unfold tailPath. rewrite !string_app_assoc. done.
Qed.

(** Whatever precedes the collection path, the loop reaches it with a
    rooted buffer. *)
Lemma cleanLoop_prefix fuel rest out :
  (String.length rest <= fuel)%nat -> rootedOut out ->
  rest = tailPath realm
  \/ (exists pre, rest = pre +:+ String "/" (tailPath realm)) ->
  endsWithTail realm (cleanLoop fuel true rest out 1).
Proof.
  revert rest out. induction fuel as [|fuel IH]; intros rest out Hlen Hr Hrest.
  { pose proof tailPath_length as Ht.
    destruct Hrest as [->|[pre ->]]; [lia|].
    rewrite string_length_app in Hlen. simpl in Hlen. lia. }
  destruct Hrest as [->|[pre ->]].
  { apply cleanLoop_tail; [done|]. pose proof tailPath_length. lia. }
  rewrite string_length_app in Hlen. cbn [String.length] in Hlen.
  assert (forall pre', (String.length pre' < String.length pre)%nat ->
            (String.length (pre' +:+ String "/" (tailPath realm)) <= fuel)%nat)
    as Hfuel.
  { intros pre' Hlt. rewrite string_length_app. cbn [String.length]. lia. }
  destruct pre as [|c pre].
  { change ("" +:+ String "/" (tailPath realm))
      with (String "/" (tailPath realm)).
    rewrite cleanLoop_slash.
    apply IH; [cbn [String.length Nat.add] in Hlen; lia|done|by left]. }
  rewrite string_app_cons. cbn [cleanLoop].
  destruct (isSlash c) eqn:Hc.
  { apply IH; [apply Hfuel; cbn [String.length]; lia|done|eauto]. }
  destruct (isDot c && atEndOrSlash (pre +:+ String "/" (tailPath realm))).
  { apply IH; [apply Hfuel; cbn [String.length]; lia|done|eauto]. }
  destruct (isDot c && match pre +:+ String "/" (tailPath realm) with
                       | String c1 r2 => isDot c1 && atEndOrSlash r2
                       | EmptyString => false
                       end) eqn:Hdd.
  - destruct pre as [|c1 pre].
    { apply andb_prop in Hdd as [_ Hdd]. done. }
    rewrite string_app_cons.
    assert (endsWithTail realm
              (cleanLoop fuel true (pre +:+ String "/" (tailPath realm)) out 1))
      as Hsame.
    { apply IH; [apply Hfuel; cbn [String.length]; lia|done|eauto]. }
    destruct (Nat.ltb_spec 1 (List.length out)) as [Hlt|_]; [|done].
    destruct out as [|last out]; [done|].
    apply IH; [apply Hfuel; cbn [String.length]; lia| |eauto].
    apply backtrack_rooted. eauto using rootedOut_tail.
  - destruct (copyElement_prefix pre (tailPath realm)
                (c :: pushSlash true out) "/" eq_refl)
      as (pre' & seg & Hcopy & Hle).
    rewrite copyElement_cons, Hcopy by done.
    apply IH; [apply Hfuel; cbn [String.length]; lia| |eauto].
    apply rootedOut_app, rootedOut_cons.
    unfold pushSlash. destruct (_ || _); [by apply rootedOut_cons|done].
Qed.

End Tail.

Lemma Clean_rooted rest :
  Clean (String "/" rest) =
  let out := cleanLoop (S (String.length rest)) true rest ["/"%char] 1 in
  match out with
  | [] => "."
  | _ :: _ => string_of_list_ascii (rev out)
  end.
Proof. reflexivity. Qed.

(** Joining the collection path of a clean realm onto an empty or
    absolute base path leaves the collection path at the end. *)
Lemma Join_collection_path base realm :
  isCleanSegment realm = true -> emptyOrRooted base = true ->
  exists X, Join [base; "/v1/" +:+ realm +:+ "/devices"]
            = X +:+ "/v1/" +:+ realm +:+ "/devices".
Proof.
  intros Hrealm Hbase.
  change ("/v1/" +:+ realm +:+ "/devices") with (String "/" (tailPath realm)).
  assert (forall rest,
            rest = tailPath realm \/
              (exists pre, rest = pre +:+ String "/" (tailPath realm)) ->
            exists X, Clean (String "/" rest)
                      = X +:+ String "/" (tailPath realm)) as Hclean.
  { intros rest Hrest. rewrite Clean_rooted. cbv zeta.
    destruct (cleanLoop_prefix realm Hrealm (S (String.length rest)) rest
                ["/"%char]) as [X HX]; [lia|by exists []|done|].
    destruct (cleanLoop _ true rest ["/"%char] 1) as [|o out].
    - destruct X; discriminate HX.
    - by exists X. }
  unfold Join. cbn [fold_left].
  destruct (Nat.eqb_spec (0 + String.length base
                          + String.length (String "/" (tailPath realm))) 0)
    as [Hz|_]; [cbn [String.length] in Hz; lia|].
  destruct base as [|c base].
  - cbn [joinBuf String.eqb negb orb andb].
    change ("" +:+ ?x) with x. apply Hclean. by left.
  - cbn in Hbase. apply isSlash_eq in Hbase as ->.
    cbn [joinBuf String.eqb negb orb andb].
    change ("" +:+ ?x) with x. rewrite !string_app_cons.
    apply Hclean. right. exists (base +:+ "/"). by rewrite !string_app_assoc.
Qed.

End PathFacts.

(** ** The collaborator *)

Section CollaboratorFacts.
Context `{Env}.

Lemma exchange_sent c req expected w :
  (exchange c req expected w).2
  = {| backend := (roundTrip c req (backend w)).2; sent := sent w ++ [req] |}.
Proof.
  unfold exchange. destruct (roundTrip c req (backend w)) as [[e|resp] b];
    cbn; [done|]. by destruct (StatusCode resp =? expected)%Z.
Qed.

Lemma exchange_result c req w :
  match (exchange c req 200 w).1 with
  | inl e => Some e
  | inr _ => None
  end = surfaced (roundTrip c req (backend w)).1 (fun _ => None).
Proof.
  unfold exchange, surfaced.
  destruct (roundTrip c req (backend w)) as [[e|resp] b]; cbn; [done|].
  by destruct (StatusCode resp =? 200)%Z.
Qed.

(** A PATCH is one exchange; its error is the exchange's. *)
Lemma genericJSONDataAPIPatch_spec c urlString payload w :
  let req := mkRequest PATCH urlString (Some payload) in
  genericJSONDataAPIPatch c urlString payload 200 w
  = (surfaced (roundTrip c req (backend w)).1 (fun _ => None),
     {| backend := (roundTrip c req (backend w)).2; sent := sent w ++ [req] |}).
Proof.
  intros req. unfold genericJSONDataAPIPatch. fold req.
  pose proof (exchange_sent c req 200 w) as Hw.
  pose proof (exchange_result c req w) as Hr.
  destruct (exchange c req 200 w) as [[e|body] w']; cbn in *; congruence.
Qed.

(** A GET is one exchange; a 200 body goes through the decoder. *)
Lemma genericJSONDataAPIGET_spec {T : Type} `{Unmarshal T} c (target : T)
    urlString w :
  let req := mkRequest GET urlString None in
  let r := genericJSONDataAPIGET c target urlString 200 w in
  r.2 = {| backend := (roundTrip c req (backend w)).2; sent := sent w ++ [req] |}
  /\ r.1.2 = surfaced (roundTrip c req (backend w)).1
                      (fun body => (unmarshal body target).2).
Proof.
  intros req r. subst r. unfold genericJSONDataAPIGET, exchange, surfaced.
  fold req.
  destruct (roundTrip c req (backend w)) as [[e|resp] b]; cbn; [done|].
  destruct (StatusCode resp =? 200)%Z; cbn; [|done].
  by destruct (unmarshal (Body resp) target).
Qed.

Lemma requestsOf_one {A : Type} (w : World) (a : A) b req :
  requestsOf w (Returned (a, {| backend := b; sent := sent w ++ [req] |}))
  = Some [req].
Proof. unfold requestsOf. cbn [sent]. by rewrite drop_app_length. Qed.

End CollaboratorFacts.

(** ** The accessors *)

Section AccessorFacts.
Context `{Env}.
Variable s : AppEngineService.
Variable callURL : URL.
Hypothesis parsed : url_Parse (URL_String (appEngineURL s)) = inr callURL.

Lemma callURLFor_parsed formatted :
  callURLFor s formatted
  = Returned (setPath callURL (path.Join [Path callURL; formatted])).
Proof. unfold callURLFor. by rewrite parsed. Qed.

(** What a PATCH helper does once the service URL parses: one PATCH of the
    target with the payload, whose error is returned as it is. *)
Lemma patch_call formatted payload w :
  match callURLFor s formatted with
  | Panicked => Panicked
  | Returned u =>
      Returned (genericJSONDataAPIPatch (client s) (URL_String u) payload 200 w)
  end
  = let req := mkRequest PATCH (targetURL callURL formatted) (Some payload) in
    Returned (surfaced (roundTrip (client s) req (backend w)).1 (fun _ => None),
              {| backend := (roundTrip (client s) req (backend w)).2;
                 sent := sent w ++ [req] |}).
Proof.
  rewrite callURLFor_parsed. cbv zeta.
  by rewrite genericJSONDataAPIPatch_spec.
Qed.

Lemma expects200_patch formatted payload :
  expects200 (client s)
    (fun w => match callURLFor s formatted with
              | Panicked => Panicked
              | Returned u =>
                  Returned (genericJSONDataAPIPatch (client s) (URL_String u)
                                                    payload 200 w)
              end)
    (fun e => e) (fun _ => None).
Proof.
  intros w. rewrite patch_call. cbv zeta. by eexists _, _.
Qed.

Lemma expects200_get {T : Type} `{Unmarshal T} formatted (zero : T) :
  expects200 (client s)
    (fun w => match callURLFor s formatted with
              | Panicked => Panicked
              | Returned u =>
                  Returned (genericJSONDataAPIGET (client s) zero
                                                  (URL_String u) 200 w)
              end)
    snd (fun body => (unmarshal body zero).2).
Proof.
  intros w. rewrite callURLFor_parsed.
  destruct (genericJSONDataAPIGET_spec (client s) zero
              (targetURL callURL formatted) w)
    as [Hw Hr].
  unfold targetURL in *.
  destruct (genericJSONDataAPIGET _ _ _ _ _) as [a w']. cbn in *. subst w'.
  by eexists _, _.
Qed.

Ltac patch_request :=
  cbv zeta; rewrite !patch_call; cbv zeta; rewrite !requestsOf_one.

(** C8: AddDeviceAlias sends the PATCH body [{"aliases": {tag: value}}],
    DeleteDeviceAlias sends [{"aliases": {tag: null}}] with a JSON null,
    SetDeviceMetadata and DeleteDeviceMetadata send the same shapes under
    ["metadata"], and the request of a delete always differs from the
    request that sets the key to the empty string. *)
Theorem alias_metadata_payloads (realm deviceID aliasTag deviceAlias : string)
    (deviceIdentifier : string) (deviceIdentifierType : DeviceIdentifierType)
    (metadataKey metadataValue : string) (w : World) :
  (exists u,
     requestsOf w (AddDeviceAlias s realm deviceID aliasTag deviceAlias w)
     = Some [mkRequest PATCH u
               (Some (JObject [("aliases",
                                JObject [(aliasTag, JString deviceAlias)])]))])
  /\ (exists u,
        requestsOf w (DeleteDeviceAlias s realm deviceID aliasTag w)
        = Some [mkRequest PATCH u
                  (Some (JObject [("aliases", JObject [(aliasTag, JNull)])]))])
  /\ (exists u,
        requestsOf w (SetDeviceMetadata s realm deviceIdentifier
                        deviceIdentifierType metadataKey metadataValue w)
        = Some [mkRequest PATCH u
                  (Some (JObject [("metadata",
                                   JObject [(metadataKey,
                                             JString metadataValue)])]))])
  /\ (exists u,
        requestsOf w (DeleteDeviceMetadata s realm deviceIdentifier
                        deviceIdentifierType metadataKey w)
        = Some [mkRequest PATCH u
                  (Some (JObject [("metadata",
                                   JObject [(metadataKey, JNull)])]))])
  /\ requestsOf w (DeleteDeviceAlias s realm deviceID aliasTag w)
     <> requestsOf w (AddDeviceAlias s realm deviceID aliasTag "" w)
  /\ requestsOf w (DeleteDeviceMetadata s realm deviceIdentifier
                     deviceIdentifierType metadataKey w)
     <> requestsOf w (SetDeviceMetadata s realm deviceIdentifier
                        deviceIdentifierType metadataKey "" w).
Proof.
  unfold AddDeviceAlias, DeleteDeviceAlias, SetDeviceMetadata,
    DeleteDeviceMetadata.
  repeat split; try (eexists; patch_request; reflexivity);
    patch_request; discriminate.
Qed.

(** C9: AddDeviceAlias and DeleteDeviceAlias PATCH the path formatted as
    [/v1/{realm}/devices/{deviceID}] from the deviceID argument itself and
    joined onto the service's base path; neither the resolver nor
    [devicePath] takes part.  InhibitDevice and the metadata operations
    PATCH the path of the resolved identifier type instead. *)
Theorem alias_ops_skip_resolution (realm deviceID aliasTag deviceAlias : string)
    (deviceIdentifierType : DeviceIdentifierType) (inhibit : bool)
    (metadataKey metadataValue : string) (w : World) :
  let direct := targetURL callURL ("/v1/" +:+ realm +:+ "/devices/" +:+ deviceID) in
  let resolved :=
    targetURL callURL
      ("/v1/" +:+ realm +:+ "/" +:+
       devicePath deviceID
         (resolveDeviceIdentifierType deviceID deviceIdentifierType)) in
  requestsOf w (AddDeviceAlias s realm deviceID aliasTag deviceAlias w)
  = Some [mkRequest PATCH direct
            (Some (JObject [("aliases",
                             JObject [(aliasTag, JString deviceAlias)])]))]
  /\ requestsOf w (DeleteDeviceAlias s realm deviceID aliasTag w)
     = Some [mkRequest PATCH direct
               (Some (JObject [("aliases", JObject [(aliasTag, JNull)])]))]
  /\ requestsOf w (InhibitDevice s realm deviceID deviceIdentifierType
                     inhibit w)
     = Some [mkRequest PATCH resolved
               (Some (JObject [("credentials_inhibited", JBool inhibit)]))]
  /\ requestsOf w (SetDeviceMetadata s realm deviceID deviceIdentifierType
                     metadataKey metadataValue w)
     = Some [mkRequest PATCH resolved
               (Some (JObject [("metadata",
                                JObject [(metadataKey,
                                          JString metadataValue)])]))]
  /\ requestsOf w (DeleteDeviceMetadata s realm deviceID deviceIdentifierType
                     metadataKey w)
     = Some [mkRequest PATCH resolved
               (Some (JObject [("metadata", JObject [(metadataKey, JNull)])]))].
Proof.
  unfold AddDeviceAlias, DeleteDeviceAlias, InhibitDevice, SetDeviceMetadata,
    DeleteDeviceMetadata.
  repeat split; patch_request; reflexivity.
Qed.

(** An operation that post-processes [GetDevice] inherits its exchange. *)
Lemma expects200_after_GetDevice {A : Type} realm deviceIdentifier
    deviceIdentifierType
    (op : World -> Outcome ((A * option error) * World))
    (onError : A) (project : DeviceDetails -> A) :
  (forall w,
     op w = match GetDevice s realm deviceIdentifier deviceIdentifierType w with
            | Panicked => Panicked
            | Returned ((deviceDetails, err), w') =>
                match err with
                | Some e => Returned ((onError, Some e), w')
                | None => Returned ((project deviceDetails, None), w')
                end
            end) ->
  expects200 (client s) op snd
    (fun body => (unmarshal body zeroDeviceDetails).2).
Proof.
  intros Hop w. rewrite Hop. unfold GetDevice. cbv zeta.
  destruct (expects200_get
              ("/v1/" +:+ realm +:+ "/" +:+
               devicePath deviceIdentifier
                 (resolveDeviceIdentifierType deviceIdentifier
                    deviceIdentifierType))
              zeroDeviceDetails w) as (req & [d err] & -> & Herr).
  cbn [snd] in Herr. exists req.
  destruct err as [e|]; eexists; (split; [reflexivity|done]).
Qed.

(** C10: every accessor and mutation makes one exchange with 200 as the
    only success status; the transport's error, or the status error for
    any other status, is what the operation returns, and nothing is
    retried. *)
Theorem accessors_expect_200 (realm deviceIdentifier : string)
    (deviceIdentifierType : DeviceIdentifierType)
    (aliasTag deviceAlias metadataKey metadataValue : string)
    (inhibit : bool) :
  let detailsError := fun body => (unmarshal body zeroDeviceDetails).2 in
  expects200 (client s)
    (GetDevice s realm deviceIdentifier deviceIdentifierType) snd detailsError
  /\ expects200 (client s)
       (ListDeviceInterfaces s realm deviceIdentifier deviceIdentifierType)
       snd (fun body => (unmarshal body ([] : list string)).2)
  /\ expects200 (client s) (GetDevicesStats s realm)
       snd (fun body => (unmarshal body zeroDevicesStats).2)
  /\ expects200 (client s)
       (AddDeviceAlias s realm deviceIdentifier aliasTag deviceAlias)
       (fun e => e) (fun _ => None)
  /\ expects200 (client s) (DeleteDeviceAlias s realm deviceIdentifier aliasTag)
       (fun e => e) (fun _ => None)
  /\ expects200 (client s)
       (InhibitDevice s realm deviceIdentifier deviceIdentifierType inhibit)
       (fun e => e) (fun _ => None)
  /\ expects200 (client s)
       (SetDeviceMetadata s realm deviceIdentifier deviceIdentifierType
          metadataKey metadataValue)
       (fun e => e) (fun _ => None)
  /\ expects200 (client s)
       (DeleteDeviceMetadata s realm deviceIdentifier deviceIdentifierType
          metadataKey)
       (fun e => e) (fun _ => None)
  /\ expects200 (client s) (GetDeviceIDFromAlias s realm deviceAlias)
       snd detailsError
  /\ expects200 (client s) (ListDeviceAliases s realm deviceIdentifier)
       snd detailsError
  /\ expects200 (client s)
       (ListDeviceMetadata s realm deviceIdentifier deviceIdentifierType)
       snd detailsError.
Proof.
  cbv zeta.
  repeat split;
    first [ apply expects200_get
          | apply expects200_patch
          | eapply expects200_after_GetDevice; intros w; reflexivity ].
Qed.

End AccessorFacts.

Section ResolverFacts.
Context `{Env}.

(** The lookup of a device by alias, in full: on a service URL that does
    not parse it panics; otherwise it sends one GET without a body to the
    alias path of [devicePath] under the realm, joined onto the service's
    base path, and returns the device ID decoded from the answer, or the
    empty string with the error. *)
Lemma alias_lookup_run (s : AppEngineService) (realm deviceAlias : string)
    (w : World) :
  match url_Parse (URL_String (appEngineURL s)) with
  | inl _ => GetDeviceIDFromAlias s realm deviceAlias w = Panicked
  | inr callURL =>
      let req :=
        mkRequest GET
          (targetURL callURL
             ("/v1/" +:+ realm +:+ "/" +:+
              devicePath deviceAlias AstarteDeviceAlias))
          None in
      GetDeviceIDFromAlias s realm deviceAlias w
      = Returned (lookupAnswer (roundTrip (client s) req (backend w)).1,
                  {| backend := (roundTrip (client s) req (backend w)).2;
                     sent := sent w ++ [req] |})
  end.
Proof.
  unfold GetDeviceIDFromAlias, GetDevice, callURLFor, targetURL.
  cbn [resolveDeviceIdentifierType].
  destruct (url_Parse _) as [e|callURL]; [done|].
  cbv zeta. unfold genericJSONDataAPIGET, exchange, lookupAnswer.
  destruct (roundTrip _ _ _) as [[e|resp] b]; cbn [fst snd]; [done|].
  destruct (StatusCode resp =? 200)%Z; [|done].
  by destruct (unmarshal _ _) as [d [e|]].
Qed.

(** C7: an explicit identifier type is returned by the resolver as it is,
    whatever the string looks like; with AstarteDeviceID,
    GetDeviceIDFromDeviceIdentifier returns the identifier itself, without
    an error and without touching the world.  With AstarteDeviceAlias it
    is the alias lookup, whatever the identifier looks like: on a service
    URL that parses, one GET without a body to the alias path of
    [devicePath] under the realm, and as result the device ID decoded
    from a 200 answer, or the empty string with the transport, status or
    decode error; on a service URL that does not parse, the panic of the
    dropped parse error. *)
Theorem explicit_type_is_trusted (s : AppEngineService)
    (realm deviceIdentifier : string) (w : World) :
  resolveDeviceIdentifierType deviceIdentifier AstarteDeviceID
  = AstarteDeviceID
  /\ resolveDeviceIdentifierType deviceIdentifier AstarteDeviceAlias
     = AstarteDeviceAlias
  /\ GetDeviceIDFromDeviceIdentifier s realm deviceIdentifier
       AstarteDeviceID w
     = Returned ((deviceIdentifier, None), w)
  /\ GetDeviceIDFromDeviceIdentifier s realm deviceIdentifier
       AstarteDeviceAlias w
     = GetDeviceIDFromAlias s realm deviceIdentifier w
  /\ match url_Parse (URL_String (appEngineURL s)) with
     | inl _ =>
         GetDeviceIDFromDeviceIdentifier s realm deviceIdentifier
           AstarteDeviceAlias w
         = Panicked
     | inr callURL =>
         let req :=
           mkRequest GET
             (targetURL callURL
                ("/v1/" +:+ realm +:+ "/" +:+
                 devicePath deviceIdentifier AstarteDeviceAlias))
             None in
         GetDeviceIDFromDeviceIdentifier s realm deviceIdentifier
           AstarteDeviceAlias w
         = Returned (lookupAnswer (roundTrip (client s) req (backend w)).1,
                     {| backend := (roundTrip (client s) req (backend w)).2;
                        sent := sent w ++ [req] |})
     end.
Proof.
  repeat split.
  change (GetDeviceIDFromDeviceIdentifier s realm deviceIdentifier
            AstarteDeviceAlias w)
    with (GetDeviceIDFromAlias s realm deviceIdentifier w).
  apply alias_lookup_run.
Qed.

(** An accessor that drops the parse error panics on a service URL that
    does not parse, before any request. *)
Lemma callURLFor_unparsable (s : AppEngineService) (formatted : string)
    (err : error) :
  url_Parse (URL_String (appEngineURL s)) = inl err ->
  callURLFor s formatted = Panicked.
Proof. intros Hparse. unfold callURLFor. by rewrite Hparse. Qed.

(** Autodetection classifies by the structural test alone. *)
Lemma autodetect_classifies (deviceIdentifier : string) :
  resolveDeviceIdentifierType deviceIdentifier AutodiscoverDeviceIdentifier
  = if IsValidAstarteDeviceID deviceIdentifier
    then AstarteDeviceID else AstarteDeviceAlias.
Proof. reflexivity. Qed.

(** ** The paginator's constructor *)

(** C5, as the code has it: when the service URL parses, the paginator of
    GetDeviceListPaginator has its has-next flag set, an empty query, the
    given page size, and as base path the collection path joined onto the
    service's path; for a realm that is one clean path element and a
    service path that is empty or absolute, that path ends with
    [/v1/{realm}/devices]. *)
Theorem GetDeviceListPaginator_ready (s : AppEngineService) (realm : string)
    (P : Z) (callURL : URL) :
  url_Parse (URL_String (appEngineURL s)) = inr callURL ->
  exists d,
    GetDeviceListPaginator s realm P = inr d
    /\ HasNextPage d = true
    /\ nextQuery d = ∅
    /\ pageSize d = P
    /\ Path (baseURL d)
       = path.Join [Path callURL; "/v1/" +:+ realm +:+ "/devices"]
    /\ (isCleanSegment realm = true ->
        emptyOrRooted (Path callURL) = true ->
        HasSuffix (Path (baseURL d)) ("/v1/" +:+ realm +:+ "/devices")).
Proof.
  intros Hparse. unfold GetDeviceListPaginator. rewrite Hparse.
  eexists. split; [reflexivity|]. cbn.
  repeat split. intros Hrealm Hbase.
  destruct (PathFacts.Join_collection_path (Path callURL) realm Hrealm Hbase)
    as [X ->].
  apply HasSuffix_app.
Qed.

End ResolverFacts.

Lemma explicit_type_is_trusted_witness :
  @GetDeviceIDFromDeviceIdentifier Registry.env Registry.service "test"
    "my-alias" AstarteDeviceID Registry.world
  = Returned (("my-alias", None), Registry.world)
  /\ @IsValidAstarteDeviceID Registry.env "abcdefghijklmnopqrstuv" = true
  /\ @GetDeviceIDFromDeviceIdentifier Registry.env Registry.service "test"
       "abcdefghijklmnopqrstuv" AstarteDeviceAlias Registry.world
     = Returned
         (("9876543210987654321098", None),
          @mkWorld Registry.env Registry.registered
            [mkRequest GET
               "/appengine/v1/test/devices-by-alias/abcdefghijklmnopqrstuv"
               None]).
Proof.
  split; [|split; [reflexivity|]].
  - exact (proj1 (proj2 (proj2
             (@explicit_type_is_trusted Registry.env Registry.service "test"
                "my-alias" Registry.world)))).
  - exact (proj2 (proj2 (proj2 (proj2
             (@explicit_type_is_trusted Registry.env Registry.service "test"
                "abcdefghijklmnopqrstuv" Registry.world))))).
Defined.

Lemma GetDeviceListPaginator_ready_witness :
  url_Parse (URL_String (appEngineURL Fake.service))
  = inr (mkURL "" "" "/appengine" "")
  /\ exists d,
       GetDeviceListPaginator Fake.service "test" 2 = inr d
       /\ HasNextPage d = true
       /\ nextQuery d = ∅
       /\ pageSize d = 2%Z
       /\ HasSuffix (Path (baseURL d)) "/v1/test/devices".
Proof.
  split; [reflexivity|].
  destruct (GetDeviceListPaginator_ready Fake.service "test" 2
              (mkURL "" "" "/appengine" "") eq_refl)
    as (d & Hd & Hnext & Hquery & Hsize & _ & Hpath).
  exists d. repeat split; try assumption.
  exact (Hpath eq_refl eq_refl).
Defined.

(** C5 as stated fails for a realm that is not a clean path element:
    [path.Join] cleans [/v1/../devices] away. *)
Lemma GetDeviceListPaginator_dotdot_realm :
  exists d,
    GetDeviceListPaginator Fake.service ".." 2 = inr d
    /\ Path (baseURL d) = "/appengine/devices"
    /\ ~ HasSuffix (Path (baseURL d)) ("/v1/" +:+ ".." +:+ "/devices").
Proof.
  eexists. split; [reflexivity|]. split; [reflexivity|].
  unfold HasSuffix. intros Hs. apply (bool_decide_pack _) in Hs.
  vm_compute in Hs. exact Hs.
Qed.

(** ** The paginator *)

Section PaginatorFacts.
Context `{Env}.


(** One call of GetNextPage: the page size and the collection URL stay,
    and a call on a cursor that has a next page sends exactly one fetch,
    bounded by the page size. *)
Lemma GetNextPage_step (d : DeviceListPaginator) (w : World) :
  pageSize (GetNextPage d w).1.2 = pageSize d
  /\ baseURL (GetNextPage d w).1.2 = baseURL d
  /\ (hasNextPage d = true ->
      sent (GetNextPage d w).2
      = sent w ++ [pageRequest (baseURL d)
                     (<[limitParam := [Itoa (pageSize d)]]> (nextQuery d))]).
Proof.
  unfold GetNextPage.
  destruct (hasNextPage d); cbn; [|done].
  match goal with
  | |- context [genericJSONDataAPIGET ?c ?t ?u 200 w] =>
      destruct (genericJSONDataAPIGET_spec c t u w) as [Hw _];
      destruct (genericJSONDataAPIGET c t u 200 w) as [[pg err] w1]
  end.
  cbn in Hw. subst w1.
  destruct err as [e1|]; [done|]. by destruct (pageNext pg).
Qed.

(** C6: no operation changes the page size fixed at construction;
    GetNextPage returns a paginator of the same page size, whether it
    succeeds or fails, and every request of a traversal is a fetch of the
    same collection bounded by that page size. *)
Theorem pageSize_is_fixed :
  (forall (d : DeviceListPaginator) (w : World),
     pageSize (GetNextPage d w).1.2 = pageSize d)
  /\ (forall fuel (d d' : DeviceListPaginator) (w w' : World) pages r,
        drive fuel d w = Some (pages, r, d', w') ->
        pageSize d' = pageSize d
        /\ exists reqs,
             sent w' = sent w ++ reqs
             /\ Forall (boundedFetch (pageSize d) (baseURL d)) reqs).
Proof.
  split; [intros d w; apply GetNextPage_step|].
  induction fuel as [|fuel IH]; intros d d' w w' pages r Hdrive; [done|].
  cbn [drive] in Hdrive. unfold HasNextPage in Hdrive.
  destruct (hasNextPage d) eqn:Hnext.
  2:{ simplify_eq. split; [done|]. exists []. by rewrite app_nil_r. }
  destruct (GetNextPage_step d w) as (Hsize & Hbase & Hsent).
  specialize (Hsent Hnext).
  destruct (GetNextPage d w) as [[[page err] d1] w1]. cbn in *.
  assert (boundedFetch (pageSize d) (baseURL d)
            (pageRequest (baseURL d)
               (<[limitParam := [Itoa (pageSize d)]]> (nextQuery d)))) as Hreq.
  { eexists. split; [|reflexivity]. apply lookup_insert_eq. }
  destruct err as [e|].
  { simplify_eq. split; [done|]. eexists. split; [done|]. by constructor. }
  destruct (drive fuel d1 w1) as [[[[pages1 r1] d2] w2]|] eqn:Hrest; [|done].
  simplify_eq. destruct (IH _ _ _ _ _ _ Hrest) as (Hsize2 & reqs & Hsent2 & Hall).
  split; [congruence|].
  eexists (_ :: reqs). rewrite Hsent2, Hsent, <- app_assoc. split; [done|].
  constructor; [done|]. by rewrite <- Hsize, <- Hbase.
Qed.

(** The loop of ListDevices makes the same calls as a traversal by
    hand. *)
Lemma ListDevices_loop_drive fuel (d : DeviceListPaginator) result (w : World) :
  ListDevices_loop fuel d result w
  = match drive fuel d w with
    | Some (pages, None, _, w') => Some ((result ++ concat pages, None), w')
    | Some (_, Some e, _, w') => Some (([], Some e), w')
    | None => None
    end.
Proof.
  revert d result w. induction fuel as [|fuel IH]; intros d result w; [done|].
  cbn [ListDevices_loop drive].
  destruct (HasNextPage d); [|by rewrite app_nil_r].
  destruct (GetNextPage d w) as [[[page err] d1] w1].
  destruct err as [e|]; [done|]. rewrite IH.
  destruct (drive fuel d1 w1) as [[[[pages r] d2] w2]|]; [|done].
  destruct r; [done|]. cbn [concat]. by rewrite app_assoc.
Qed.

(** C3: when a page fetch inside ListDevices fails, after any number of
    pages fetched, ListDevices returns that error with an empty list; and
    whenever ListDevices returns an error, the list next to it is
    empty. *)
Theorem ListDevices_error_discards_pages (s : AppEngineService)
    (realm : string) :
  (forall fuel paginator (w : World) pages e d' w',
     GetDeviceListPaginator s realm defaultPageSize = inr paginator ->
     drive fuel paginator w = Some (pages, Some e, d', w') ->
     ListDevices fuel s realm w = Some (([], Some e), w'))
  /\ (forall fuel (w w' : World) result err,
        ListDevices fuel s realm w = Some ((result, Some err), w') ->
        result = []).
Proof.
  split.
  - intros fuel paginator w pages e d' w' Hpag Hdrive.
    unfold ListDevices. rewrite Hpag, ListDevices_loop_drive, Hdrive. done.
  - intros fuel w w' result err. unfold ListDevices.
    destruct (GetDeviceListPaginator s realm defaultPageSize) as [e|d];
      [by intros; simplify_eq|].
    rewrite ListDevices_loop_drive.
    destruct (drive fuel d w) as [[[[pages r] d2] w2]|]; [|done].
    destruct r; intros; by simplify_eq.
Qed.

(** C4: when a traversal by hand with the default page size runs to the
    end without an error, ListDevices returns the concatenation of its
    pages in arrival order, and leaves the same world. *)
Theorem ListDevices_is_concat (s : AppEngineService) (realm : string)
    (fuel : nat) (paginator d' : DeviceListPaginator) (w w' : World)
    (pages : list (list string)) :
  GetDeviceListPaginator s realm defaultPageSize = inr paginator ->
  drive fuel paginator w = Some (pages, None, d', w') ->
  ListDevices fuel s realm w = Some ((concat pages, None), w').
Proof.
  intros Hpag Hdrive.
  unfold ListDevices. by rewrite Hpag, ListDevices_loop_drive, Hdrive.
Qed.

End PaginatorFacts.

(** *** Draining a fixed backend *)

Lemma ceilDiv_pos (m p : nat) :
  (1 <= m)%nat -> (1 <= p)%nat -> ceilDiv m p = S ((m - 1) / p).
Proof.
  intros Hm Hp. unfold ceilDiv.
  replace (m + p - 1)%nat with ((m - 1) + 1 * p)%nat by lia.
  rewrite Nat.div_add by lia. lia.
Qed.

Lemma ceilDiv_small (m p : nat) :
  (1 <= m <= p)%nat -> ceilDiv m p = 1%nat.
Proof.
  intros Hm. rewrite ceilDiv_pos by lia.
  rewrite Nat.div_small by lia. done.
Qed.

Lemma ceilDiv_step (m p : nat) :
  (1 <= p < m)%nat -> ceilDiv m p = S (ceilDiv (m - p) p).
Proof.
  intros Hm. rewrite !ceilDiv_pos by lia.
  replace (m - 1)%nat with ((m - p - 1) + 1 * p)%nat by lia.
  rewrite Nat.div_add by lia. lia.
Qed.

Section Draining.
Context `{Env}.
Variable devs : list string.
Variable token : nat -> string.
Variable c : Client.
Variable collection : URL.
Variable b : Server.
Variable P : Z.
Hypothesis P_pos : (1 <= P)%Z.
Hypothesis served : servesDevices devs token c collection b.

(** One fetch at position [k]: the next [P] devices, and a cursor that
    stands before [k + P] when devices remain and is exhausted
    otherwise. *)
Lemma GetNextPage_served (k : nat) (d : DeviceListPaginator) (w : World) :
  standsAt token c collection P k d -> backend w = b ->
  exists d1 w1,
    GetNextPage d w = ((take (Z.to_nat P) (drop k devs), None), d1, w1)
    /\ backend w1 = b
    /\ List.length (sent w1) = S (List.length (sent w))
    /\ (if (k + Z.to_nat P <? List.length devs)%nat
        then standsAt token c collection P (k + Z.to_nat P) d1
        else hasNextPage d1 = false).
Proof.
  intros (Hnext & Hbase & Hc & Hsize & Hquery) Hb.
  destruct (served P k P_pos) as (body & Htrip & Hdecode).
  destruct (Nat.ltb_spec (k + Z.to_nat P) (List.length devs)) as [Hlt|Hge].
  all: unfold GetNextPage, genericJSONDataAPIGET, exchange.
  all: rewrite Hnext, Hbase, Hc, Hsize, Hquery, Hb; cbn [negb].
  all: fold (pageQuery P (cursorAt token k)).
  all: fold (pageRequest collection (pageQuery P (cursorAt token k))).
  all: rewrite Htrip; cbn; rewrite Hdecode; cbn.
  - eexists _, _. split; [reflexivity|]. cbn.
    split; [done|]. split; [rewrite length_app; cbn; lia|].
    repeat split; try done.
    assert (exists j, k + Z.to_nat P = S j)%nat as [j ->]
      by (exists (k + Z.to_nat P - 1)%nat; lia).
    cbn [cursorAt]. destruct (cursorAt token k); [|done].
    by rewrite insert_insert_eq.
  - eexists _, _. split; [reflexivity|]. cbn.
    split; [done|]. split; [rewrite length_app; cbn; lia|done].
Qed.

Lemma drive_served (n : nat) :
  forall (k : nat) (d : DeviceListPaginator) (w : World) (fuel : nat),
    (List.length devs - k <= n)%nat -> (n + 2 <= fuel)%nat ->
    k = 0%nat \/ (k < List.length devs)%nat ->
    standsAt token c collection P k d -> backend w = b ->
    exists pages d' w',
      drive fuel d w = Some (pages, None, d', w')
      /\ concat pages = drop k devs
      /\ Forall (fun page => (List.length page <= Z.to_nat P)%nat) pages
      /\ List.length pages
         = Nat.max 1 (ceilDiv (List.length devs - k) (Z.to_nat P))
      /\ HasNextPage d' = false
      /\ backend w' = b
      /\ List.length (sent w') = (List.length (sent w) + List.length pages)%nat.
Proof.
  induction n as [|n IH]; intros k d w fuel Hn Hfuel Hk Hat Hb.
  all: destruct fuel as [|fuel]; [lia|].
  all: destruct (GetNextPage_served k d w Hat Hb)
         as (d1 & w1 & Hcall & Hb1 & Hsent1 & Hafter).
  all: cbn [drive]; unfold HasNextPage at 1.
  all: destruct Hat as [Hnext Hrest]; rewrite Hnext, Hcall.
  all: destruct (Nat.ltb_spec (k + Z.to_nat P) (List.length devs)) as [Hlt|Hge];
         try lia.
  - (* the last page *)
    destruct fuel as [|fuel]; [lia|]. cbn [drive]. unfold HasNextPage.
    rewrite Hafter. eexists _, _, _. split; [reflexivity|].
    cbn [concat List.length]. rewrite app_nil_r.
    repeat split; try done.
    + apply take_ge. rewrite length_drop. lia.
    + constructor; [|done]. rewrite length_take. lia.
    + replace (List.length devs - k)%nat with 0%nat by lia.
      unfold ceilDiv. rewrite Nat.div_small by lia. done.
    + lia.
  - (* more pages follow *)
    destruct (IH (k + Z.to_nat P)%nat d1 w1 fuel)
      as (pages & d' & w' & -> & Hconcat & Hall & Hlen & Hdone & Hb' & Hsent');
      [lia|lia|right; lia|done|done|].
    eexists _, _, _. split; [reflexivity|].
    cbn [concat List.length]. rewrite Hconcat, Hlen.
    repeat split; try done.
    + by rewrite <- drop_drop, take_drop.
    + constructor; [|done]. rewrite length_take. lia.
    + rewrite (ceilDiv_step (List.length devs - k)) by lia.
      replace (List.length devs - k - Z.to_nat P)%nat
        with (List.length devs - (k + Z.to_nat P))%nat by lia.
      pose proof (ceilDiv_pos (List.length devs - (k + Z.to_nat P))
                    (Z.to_nat P)) as Hpos.
      lia.
    + lia.
  - (* the last page *)
    destruct fuel as [|fuel]; [lia|]. cbn [drive]. unfold HasNextPage.
    rewrite Hafter. eexists _, _, _. split; [reflexivity|].
    cbn [concat List.length]. rewrite app_nil_r.
    repeat split; try done.
    + apply take_ge. rewrite length_drop. lia.
    + constructor; [|done]. rewrite length_take. lia.
    + destruct (decide (List.length devs - k = 0)%nat) as [->|Hne].
      * unfold ceilDiv. rewrite Nat.div_small by lia. done.
      * rewrite ceilDiv_small by lia. done.
    + lia.
Qed.

End Draining.

(** ** The fake backend *)

Module FakeFacts.
Import Fake.

Lemma splitOn_none sep s :
  noChar sep s = true -> splitOn sep s = (s, None).
Proof.
  induction s as [|x s IH]; [done|]. unfold noChar. cbn.
  intros [Hx Hs]%andb_prop. destruct (Ascii.eqb x sep); [done|].
  by rewrite IH.
Qed.

Lemma splitOn_app sep s rest :
  noChar sep s = true ->
  splitOn sep (s +:+ String sep rest) = (s, Some rest).
Proof.
  induction s as [|x s IH].
  - intros _. change ("" +:+ String sep rest) with (String sep rest).
    cbn. by rewrite Ascii.eqb_refl.
  - unfold noChar. cbn. intros [Hx Hs]%andb_prop.
    rewrite string_app_cons. cbn. destruct (Ascii.eqb x sep); [done|].
    by rewrite IH.
Qed.

Lemma uint_noAmp d : noChar "&" (NilEmpty.string_of_uint d) = true.
Proof. induction d; done. Qed.

Lemma Itoa_noAmp z : noChar "&" (Itoa z) = true.
Proof.
  unfold Itoa, NilZero.string_of_int, NilZero.string_of_uint.
  destruct (Z.to_int z) as [d|d]; destruct d; try done;
    first [ apply (uint_noAmp (_ _))
          | change (noChar "&" (String "-" ?s)) with (noChar "&" s);
            apply (uint_noAmp (_ _)) ].
Qed.

Lemma Atoi_Itoa z : Atoi (Itoa z) = Some z.
Proof.
  unfold Atoi, Itoa. rewrite NilZero.isi.
  - by rewrite DecimalZ.of_to.
  - destruct z; cbn; [done| |done].
    intros [=Hp]. by apply DecimalPos.Unsigned.to_uint_nonnil in Hp.
  - destruct z; cbn; [done|done|].
    intros [=Hp]. by apply DecimalPos.Unsigned.to_uint_nonnil in Hp.
Qed.

Lemma strings_map ids : strings (map JString ids) = Some ids.
Proof. induction ids as [|x ids IH]; [done|]. cbn. by rewrite IH. Qed.

Lemma decodePage_pageBody ids next target :
  decodePage (pageBody ids next) target
  = ({| pageData := ids; pageNext := next |}, None).
Proof.
  unfold decodePage, pageBody. rewrite strings_map. by destruct next.
Qed.

Lemma encodeQuery_pageQuery P cursor :
  encodeQuery (pageQuery P cursor)
  = "limit=" +:+ Itoa P +:+
    match cursor with
    | Some t => "&from_token=" +:+ t
    | None => ""
    end.
Proof.
  unfold encodeQuery, pageQuery. rewrite lookup_insert_eq.
  rewrite lookup_insert_ne by done.
  destruct cursor; [by rewrite lookup_insert_eq|by rewrite lookup_empty].
Qed.

Lemma readQuery_page P (k : nat) :
  readQuery ("limit=" +:+ Itoa P +:+
             match cursorAt token k with
             | Some t => "&from_token=" +:+ t
             | None => ""
             end)
  = Some (P, Z.of_nat k).
Proof.
  unfold readQuery.
  change (stripPrefix "limit=" ("limit=" +:+ ?x)) with (Some x).
  destruct k as [|k]; cbn [cursorAt].
  - rewrite string_app_nil_r, splitOn_none by apply Itoa_noAmp.
    by rewrite Atoi_Itoa.
  - change ("&from_token=" +:+ ?t) with (String "&" ("from_token=" +:+ t)).
    rewrite splitOn_app by apply Itoa_noAmp.
    change (stripPrefix "from_token=" ("from_token=" +:+ ?x)) with (Some x).
    unfold token. by rewrite !Atoi_Itoa.
Qed.

(** The fake backend is a fixed backend holding its device list. *)
Lemma serves devs collection :
  noChar "?" (Path collection) = true ->
  servesDevices devs token tt collection (mkBackend devs None).
Proof.
  intros Hpath P k HP. exists (pageBody (take (Z.to_nat P) (drop k devs))
     (if (k + Z.to_nat P <? List.length devs)%nat
      then Some (token (k + Z.to_nat P)) else None)).
  split; [|apply decodePage_pageBody].
  unfold roundTrip, pageRequest, URL_String, Values_Encode. cbn.
  unfold serve. cbn [reqURL]. rewrite encodeQuery_pageQuery.
  change ("limit=" +:+ ?x) with (String "l" ("imit=" +:+ x)). cbn [String.eqb].
  change (String "l" ("imit=" +:+ ?x)) with ("limit=" +:+ x).
  change ("?" +:+ ?x) with (String "?" x).
  rewrite splitOn_app, readQuery_page by done.
  cbn [failingOffset devices]. rewrite Nat2Z.id.
  by destruct (decide (None = Some k)).
Qed.

End FakeFacts.

(** ** Traversals *)

Section TraversalFacts.
Context `{Env}.

(** C1, as the code has it: against a fixed backend holding [N] devices,
    a traversal with page size [P >= 1] ends without an error after
    fetching every device once, in the backend's order, in pages of at
    most [P] devices.  For [N >= 1] it takes [ceil(N/P)] fetches; an empty
    backend takes one fetch, of an empty page, because a new paginator
    always has a next page. *)
Theorem paginator_drains_backend (s : AppEngineService) (realm : string)
    (P : Z) (devs : list string) (token : nat -> string)
    (d : DeviceListPaginator) (w : World) (fuel : nat) :
  (1 <= P)%Z ->
  GetDeviceListPaginator s realm P = inr d ->
  servesDevices devs token (client s) (baseURL d) (backend w) ->
  (List.length devs + 2 <= fuel)%nat ->
  exists pages d' w',
    drive fuel d w = Some (pages, None, d', w')
    /\ concat pages = devs
    /\ Forall (fun page => (List.length page <= Z.to_nat P)%nat) pages
    /\ (devs <> [] ->
        List.length pages = ceilDiv (List.length devs) (Z.to_nat P))
    /\ (devs = [] -> pages = [[]])
    /\ HasNextPage d' = false
    /\ List.length (sent w')
       = (List.length (sent w) + List.length pages)%nat.
Proof.
  intros HP Hpag Hserved Hfuel.
  assert (standsAt token (client s) (baseURL d) P 0 d) as Hat.
  { unfold GetDeviceListPaginator in Hpag.
    destruct (url_Parse (URL_String (appEngineURL s))); [done|].
    by simplify_eq. }
  destruct (drive_served devs token (client s) (baseURL d) (backend w) P HP
              Hserved (List.length devs) 0%nat d w fuel)
    as (pages & d' & w' & Hdrive & Hconcat & Hall & Hlen & Hdone & _ & Hsent);
    [lia|lia|by left|done|done|].
  rewrite Nat.sub_0_r in Hlen. rewrite drop_0 in Hconcat.
  exists pages, d', w'. repeat split; try done.
  - intros Hne. rewrite Hlen.
    pose proof (ceilDiv_pos (List.length devs) (Z.to_nat P)) as Hpos.
    destruct devs; [done|]. cbn [List.length] in *. lia.
  - intros ->. cbn in Hlen.
    assert (ceilDiv 0 (Z.to_nat P) = 0%nat) as Hz
      by (unfold ceilDiv; apply Nat.div_small; lia).
    rewrite Hz in Hlen.
    destruct pages as [|page [|page' pages]]; cbn in Hlen; try lia.
    cbn in Hconcat. rewrite app_nil_r in Hconcat. by subst.
Qed.

(** Against a fixed backend ListDevices ends and returns every device, in
    the backend's order. *)
Corollary ListDevices_fixed_backend (s : AppEngineService) (realm : string)
    (devs : list string) (token : nat -> string)
    (paginator : DeviceListPaginator) (w : World) (fuel : nat) :
  (1 <= defaultPageSize)%Z ->
  GetDeviceListPaginator s realm defaultPageSize = inr paginator ->
  servesDevices devs token (client s) (baseURL paginator) (backend w) ->
  (List.length devs + 2 <= fuel)%nat ->
  exists w', ListDevices fuel s realm w = Some ((devs, None), w').
Proof.
  intros HP Hpag Hserved Hfuel.
  assert (standsAt token (client s) (baseURL paginator) defaultPageSize 0
            paginator) as Hat.
  { unfold GetDeviceListPaginator in Hpag.
    destruct (url_Parse (URL_String (appEngineURL s))); [done|].
    by simplify_eq. }
  destruct (drive_served devs token (client s) (baseURL paginator) (backend w)
              defaultPageSize HP Hserved (List.length devs) 0%nat paginator w
              fuel)
    as (pages & d' & w' & Hdrive & Hconcat & _); [lia|lia|by left|done|done|].
  exists w'. unfold ListDevices.
  rewrite Hpag, ListDevices_loop_drive, Hdrive. cbn [app].
  by rewrite Hconcat, drop_0.
Qed.

End TraversalFacts.

(** ** Runs against the fake backend *)

Lemma paginator_drains_backend_witness :
  exists pages d' w',
    drive 7 (Fake.paginator 2) (Fake.world ["a"; "b"; "c"; "d"; "e"] None)
    = Some (pages, None, d', w')
    /\ concat pages = ["a"; "b"; "c"; "d"; "e"]
    /\ List.length pages = 3%nat.
Proof.
  destruct (paginator_drains_backend Fake.service "test" 2
              ["a"; "b"; "c"; "d"; "e"] Fake.token (Fake.paginator 2)
              (Fake.world ["a"; "b"; "c"; "d"; "e"] None) 7
              ltac:(lia) eq_refl
              (FakeFacts.serves _ (baseURL (Fake.paginator 2)) eq_refl)
              ltac:(cbn; lia))
    as (pages & d' & w' & Hdrive & Hconcat & _ & Hlen & _).
  exists pages, d', w'. split; [exact Hdrive|]. split; [exact Hconcat|].
  exact (Hlen ltac:(discriminate)).
Defined.

(** The scenario of the specification: 5 devices in pages of 2. *)
Example five_devices_in_pages_of_two :
  drive 7 (Fake.paginator 2) (Fake.world ["a"; "b"; "c"; "d"; "e"] None)
  = Some ([["a"; "b"]; ["c"; "d"]; ["e"]], None,
          {| baseURL := mkURL "" "" "/appengine/v1/test/devices" "";
             nextQuery := {[ tokenParam := ["4"] ]}; pageSize := 2;
             pagClient := tt; hasNextPage := false |},
          {| backend := Fake.mkBackend ["a"; "b"; "c"; "d"; "e"] None;
             sent :=
               [mkRequest GET "/appengine/v1/test/devices?limit=2" None;
                mkRequest GET
                  "/appengine/v1/test/devices?limit=2&from_token=2" None;
                mkRequest GET
                  "/appengine/v1/test/devices?limit=2&from_token=4" None] |}).
Proof. vm_compute. reflexivity. Qed.

(** C1 as stated fails on an empty backend: the traversal makes one
    fetch, not [ceil(0/P) = 0]. *)
Lemma paginator_empty_backend_one_fetch :
  exists d,
    GetDeviceListPaginator Fake.service "test" 1 = inr d
    /\ servesDevices [] Fake.token tt (baseURL d) (Fake.mkBackend [] None)
    /\ exists d' w',
         drive 3 d (Fake.world [] None) = Some ([[]], None, d', w')
         /\ List.length (sent w') = 1%nat
         /\ List.length [[] : list string] <> ceilDiv (List.length ([] : list string)) 1.
Proof.
  eexists. split; [reflexivity|]. split; [by apply FakeFacts.serves|].
  eexists _, _. split; [vm_compute; reflexivity|]. split; [reflexivity|].
  vm_compute. discriminate.
Qed.


Lemma ListDevices_error_discards_pages_witness :
  exists d' w',
    GetDeviceListPaginator Fake.service "test" defaultPageSize
    = inr (Fake.paginator 2)
    /\ drive 7 (Fake.paginator 2)
             (Fake.world ["a"; "b"; "c"; "d"; "e"] (Some 2%nat))
       = Some ([["a"; "b"]], Some (UnexpectedStatus 500 JNull), d', w')
    /\ ListDevices 7 Fake.service "test"
         (Fake.world ["a"; "b"; "c"; "d"; "e"] (Some 2%nat))
       = Some (([], Some (UnexpectedStatus 500 JNull)), w').
Proof.
  eexists _, _. split; [reflexivity|].
  assert (drive 7 (Fake.paginator 2)
            (Fake.world ["a"; "b"; "c"; "d"; "e"] (Some 2%nat))
          = Some ([["a"; "b"]], Some (UnexpectedStatus 500 JNull), _, _))
    as Hdrive by (vm_compute; reflexivity).
  split; [exact Hdrive|].
  exact (proj1 (ListDevices_error_discards_pages Fake.service "test")
           7 (Fake.paginator 2) _ _ _ _ _ eq_refl Hdrive).
Defined.

Lemma ListDevices_is_concat_witness :
  exists d' w',
    GetDeviceListPaginator Fake.service "test" defaultPageSize
    = inr (Fake.paginator 2)
    /\ drive 7 (Fake.paginator 2) (Fake.world ["a"; "b"; "c"; "d"; "e"] None)
       = Some ([["a"; "b"]; ["c"; "d"]; ["e"]], None, d', w')
    /\ ListDevices 7 Fake.service "test"
         (Fake.world ["a"; "b"; "c"; "d"; "e"] None)
       = Some ((["a"; "b"; "c"; "d"; "e"], None), w').
Proof.
  eexists _, _. split; [reflexivity|].
  split; [exact five_devices_in_pages_of_two|].
  exact (ListDevices_is_concat Fake.service "test" 7 (Fake.paginator 2) _ _ _
           _ eq_refl five_devices_in_pages_of_two).
Defined.

Lemma pageSize_is_fixed_witness :
  exists pages r d' w',
    drive 7 (Fake.paginator 2) (Fake.world ["a"; "b"; "c"; "d"; "e"] None)
    = Some (pages, r, d', w')
    /\ pageSize d' = 2%Z
    /\ exists reqs,
         sent w' = reqs
         /\ Forall (boundedFetch 2 (baseURL (Fake.paginator 2))) reqs.
Proof.
  eexists _, _, _, _. split; [exact five_devices_in_pages_of_two|].
  destruct (proj2 pageSize_is_fixed _ _ _ _ _ _ _
              five_devices_in_pages_of_two) as (Hsize & reqs & Hsent & Hall).
  split; [exact Hsize|]. exists reqs. split; [exact Hsent|exact Hall].
Defined.

Lemma alias_metadata_payloads_witness :
  url_Parse (URL_String (appEngineURL Fake.service))
  = inr (mkURL "" "" "/appengine" "")
  /\ requestsOf (Fake.world [] None)
       (DeleteDeviceAlias Fake.service "test" "dev" "t1" (Fake.world [] None))
     <> requestsOf (Fake.world [] None)
          (AddDeviceAlias Fake.service "test" "dev" "t1" ""
             (Fake.world [] None)).
Proof.
  split; [reflexivity|].
  destruct (alias_metadata_payloads Fake.service (mkURL "" "" "/appengine" "")
              eq_refl "test" "dev" "t1" "foo" "dev" AstarteDeviceID "k" "v"
              (Fake.world [] None)) as (_ & _ & _ & _ & Hne & _).
  exact Hne.
Defined.

Lemma alias_ops_skip_resolution_witness :
  url_Parse (URL_String (appEngineURL Fake.service))
  = inr (mkURL "" "" "/appengine" "")
  /\ requestsOf (Fake.world [] None)
       (AddDeviceAlias Fake.service "test" "my-alias" "t1" "foo"
          (Fake.world [] None))
     = Some [mkRequest PATCH "/appengine/v1/test/devices/my-alias"
               (Some (JObject [("aliases", JObject [("t1", JString "foo")])]))]
  /\ requestsOf (Fake.world [] None)
       (InhibitDevice Fake.service "test" "my-alias"
          AutodiscoverDeviceIdentifier true (Fake.world [] None))
     = Some [mkRequest PATCH "/appengine/v1/test/devices-by-alias/my-alias"
               (Some (JObject [("credentials_inhibited", JBool true)]))].
Proof.
  split; [reflexivity|].
  destruct (alias_ops_skip_resolution Fake.service
              (mkURL "" "" "/appengine" "") eq_refl "test" "my-alias" "t1"
              "foo" AutodiscoverDeviceIdentifier true "k" "v"
              (Fake.world [] None)) as (Hadd & _ & Hinhibit & _).
  split; [exact Hadd|exact Hinhibit].
Defined.

Lemma accessors_expect_200_witness :
  url_Parse (URL_String (appEngineURL Fake.service))
  = inr (mkURL "" "" "/appengine" "")
  /\ expects200 (client Fake.service)
       (InhibitDevice Fake.service "test" "dev" AstarteDeviceID true)
       (fun e => e) (fun _ => None).
Proof.
  split; [reflexivity|].
  destruct (accessors_expect_200 Fake.service (mkURL "" "" "/appengine" "")
              eq_refl "test" "dev" AstarteDeviceID "t1" "foo" "k" "v" true)
    as (_ & _ & _ & _ & _ & Hinhibit & _).
  exact Hinhibit.
Defined.

(** The fake backend has no device endpoint: its 404 comes back from
    GetDevice as the status error, after one request. *)
Example GetDevice_surfaces_404 :
  GetDevice Fake.service "test" "dev" AstarteDeviceID (Fake.world [] None)
  = Returned ((zeroDeviceDetails, Some (UnexpectedStatus 404 JNull)),
              {| backend := Fake.mkBackend [] None;
                 sent := [mkRequest GET "/appengine/v1/test/devices/dev" None] |}).
Proof. vm_compute. reflexivity. Qed.

(** ** More on Go's [path] package *)

Module PathStateFacts.
Import path PathFacts.

(** [path.cleanLoop] returns the buffer of the state the loop ends in. *)
Lemma cleanLoop_state fuel rooted rest out dotdot :
  cleanLoop fuel rooted rest out dotdot
  = (cleanState fuel rooted rest out dotdot).1.
Proof.
  revert rest out dotdot.
  induction fuel as [|fuel IH]; intros rest out dotdot; [done|].
  destruct rest as [|c r1]; [done|]. cbn [cleanLoop cleanState].
  destruct (isSlash c); [apply IH|].
  destruct (isDot c && atEndOrSlash r1); [apply IH|].
  destruct (isDot c && _).
  - destruct (dotdot <? List.length out)%nat.
    + destruct out; apply IH.
    + destruct (negb rooted); apply IH.
  - destruct (copyElement _ _). apply IH.
Qed.

Lemma cleanState_fuel fuel fuel' rooted rest out dotdot :
  (String.length rest <= fuel)%nat -> (String.length rest <= fuel')%nat ->
  cleanState fuel rooted rest out dotdot
  = cleanState fuel' rooted rest out dotdot.
Proof.
  revert fuel' rest out dotdot.
  induction fuel as [|fuel IH]; intros fuel' rest out dotdot Hf Hf'.
  { destruct rest; [by destruct fuel'|cbn in Hf; lia]. }
  destruct rest as [|c r1]; [by destruct fuel'|].
  destruct fuel' as [|fuel']; [cbn in Hf'; lia|].
  cbn [String.length] in Hf, Hf'. cbn [cleanState].
  destruct (isSlash c) eqn:Hc; [apply IH; lia|].
  destruct (isDot c && atEndOrSlash r1); [apply IH; lia|].
  destruct (isDot c && _) eqn:Hdd.
  - destruct r1 as [|c1 r2]; [by rewrite andb_false_r in Hdd|].
    cbn [String.length] in Hf, Hf'.
    destruct (dotdot <? List.length out)%nat.
    + destruct out; apply IH; lia.
    + destruct (negb rooted); apply IH; lia.
  - pose proof (copyElement_length r1 (c :: pushSlash rooted out)) as Hlen.
    cbn [copyElement]. rewrite Hc.
    destruct (copyElement r1 (c :: pushSlash rooted out)) as [rest' out2].
    cbn [fst] in Hlen. apply IH; lia.
Qed.

Lemma atEndOrSlash_app pre c tl :
  isSlash c = true ->
  atEndOrSlash (pre +:+ String c tl) = atEndOrSlash pre.
Proof. intros Hc. destruct pre; [by cbn|done]. Qed.

(** Copying an element stops at the first slash, whatever follows it. *)
Lemma copyElement_app pre c tl out :
  isSlash c = true ->
  copyElement (pre +:+ String c tl) out
  = ((copyElement pre out).1 +:+ String c tl, (copyElement pre out).2).
Proof.
  intros Hc. revert out. induction pre as [|a pre IH]; intros out.
  - change ("" +:+ String c tl) with (String c tl). cbn. by rewrite Hc.
  - rewrite string_app_cons. cbn [copyElement].
    destruct (isSlash a); [done|]. apply IH.
Qed.

(** The loop can be cut at any slash: what comes before the slash
    determines the state in which the rest is read. *)
Lemma cleanState_split fuel fuel1 rooted pre tl out dotdot :
  (String.length pre + S (String.length tl) <= fuel)%nat ->
  (String.length pre <= fuel1)%nat ->
  cleanState fuel rooted (pre +:+ String "/" tl) out dotdot
  = cleanState fuel rooted (String "/" tl)
      (cleanState fuel1 rooted pre out dotdot).1
      (cleanState fuel1 rooted pre out dotdot).2.
Proof.
  revert fuel pre out dotdot.
  induction fuel1 as [|fuel1 IH]; intros fuel pre out dotdot Hf Hf1.
  { destruct pre; [done|cbn in Hf1; lia]. }
  destruct pre as [|c pre]; [done|].
  cbn [String.length] in Hf, Hf1.
  destruct fuel as [|fuel]; [lia|].
  assert (forall pre' o d,
            (String.length pre' <= String.length pre)%nat ->
            cleanState fuel rooted (pre' +:+ String "/" tl) o d
            = cleanState (S fuel) rooted (String "/" tl)
                (cleanState fuel1 rooted pre' o d).1
                (cleanState fuel1 rooted pre' o d).2) as Hrec.
  { intros pre' o d Hle. rewrite (IH fuel) by lia.
    apply cleanState_fuel; cbn [String.length]; lia. }
  rewrite string_app_cons. cbn [cleanState].
  destruct (isSlash c) eqn:Hc; [apply Hrec; lia|].
  rewrite atEndOrSlash_app by done.
  destruct (isDot c && atEndOrSlash pre); [apply Hrec; lia|].
  destruct pre as [|c1 pre].
  - change ("" +:+ String "/" tl) with (String "/" tl).
    rewrite andb_false_r. cbn [isDot isSlash Ascii.eqb Bool.eqb andb].
    rewrite andb_false_r.
    cbn [copyElement]. rewrite Hc.
    cbn [copyElement isSlash Ascii.eqb Bool.eqb fst snd].
    assert (forall o d, cleanState fuel1 rooted "" o d = (o, d)) as ->
      by (by destruct fuel1).
    cbn [fst snd String.length] in *.
    destruct fuel as [|fuel]; [lia|].
    change (cleanState fuel rooted tl (c :: pushSlash rooted out) dotdot
            = cleanState (S fuel) rooted tl (c :: pushSlash rooted out) dotdot).
    apply cleanState_fuel; lia.
  - rewrite string_app_cons, atEndOrSlash_app by done.
    cbn [String.length] in *.
    destruct (isDot c && (isDot c1 && atEndOrSlash pre)).
    + destruct (dotdot <? List.length out)%nat.
      * destruct out; apply Hrec; lia.
      * destruct (negb rooted); apply Hrec; lia.
    + rewrite <- !string_app_cons.
      rewrite copyElement_app by done.
      pose proof (copyElement_length (String c (String c1 pre))
                    (pushSlash rooted out)) as Hlen.
      assert (String.length (copyElement (String c (String c1 pre))
                               (pushSlash rooted out)).1
              <= S (String.length pre))%nat as Hlt.
      { rewrite copyElement_cons by done.
        apply (copyElement_length (String c1 pre)). }
      destruct (copyElement (String c (String c1 pre)) (pushSlash rooted out))
        as [rest' out2]. cbn [fst snd] in *.
      apply Hrec. lia.
Qed.

Lemma copyElement_grows rest out :
  exists seg, (copyElement rest out).2 = seg ++ out.
Proof.
  revert out. induction rest as [|c rest IH]; intros out; [by exists []|].
  cbn [copyElement]. destruct (isSlash c); [by exists []|].
  destruct (IH (c :: out)) as [seg ->]. exists (seg ++ [c]).
  by rewrite <- app_assoc.
Qed.

Lemma backtrack_floor pending out dotdot :
  (dotdot <= List.length out)%nat ->
  (dotdot <= List.length (backtrack pending out dotdot))%nat.
Proof.
  revert pending. induction out as [|c out IH]; intros pending Hd; [done|].
  cbn [backtrack].
  destruct (Nat.ltb_spec dotdot (List.length (c :: out))) as [Hlt|_]; [|done].
  destruct (negb (isSlash pending)); [|done]. cbn [andb].
  apply IH. cbn [List.length] in Hlt. lia.
Qed.

Lemma pushSlash_grows rooted out :
  pushSlash rooted out = out \/ pushSlash rooted out = "/"%char :: out.
Proof. unfold pushSlash. destruct (_ || _); auto. Qed.

(** The loop keeps its invariant. *)
Lemma cleanState_inv fuel rooted rest out dotdot :
  cleanInv rooted out dotdot ->
  cleanInv rooted (cleanState fuel rooted rest out dotdot).1
                  (cleanState fuel rooted rest out dotdot).2.
Proof.
  revert rest out dotdot.
  induction fuel as [|fuel IH]; intros rest out dotdot Hinv; [done|].
  destruct rest as [|c r1]; [done|]. cbn [cleanState].
  destruct (isSlash c); [by apply IH|].
  destruct (isDot c && atEndOrSlash r1); [by apply IH|].
  destruct (isDot c && _).
  - destruct Hinv as [Hd Hroot].
    destruct (Nat.ltb_spec dotdot (List.length out)) as [Hlt|Hge].
    + destruct out as [|last out]; [cbn in Hlt; lia|].
      apply IH. split.
      * apply backtrack_floor. cbn [List.length] in Hlt. lia.
      * intros Hr. destruct (Hroot Hr) as [-> Hout]. split; [done|].
        apply backtrack_rooted. eauto using rootedOut_tail.
    + destruct rooted; cbn [negb].
      * apply IH. by split.
      * apply IH. split; [done|]. intros; discriminate.
  - destruct (copyElement_grows (String c r1) (pushSlash rooted out))
      as [seg Hseg].
    destruct (copyElement (String c r1) (pushSlash rooted out))
      as [rest' out2]. cbn [snd] in Hseg. subst out2.
    apply IH. destruct Hinv as [Hd Hroot]. split.
    + rewrite length_app.
      destruct (pushSlash_grows rooted out) as [->| ->]; cbn [List.length]; lia.
    + intros Hr. destruct (Hroot Hr) as [-> Hout]. split; [done|].
      apply rootedOut_app.
      destruct (pushSlash_grows rooted out) as [->| ->];
        [done|by apply rootedOut_cons].
Qed.

(** A clean segment takes the default case (the state version of
    [cleanLoop_element]). *)
Lemma cleanState_element fuel rooted seg rest out dotdot :
  isCleanSegment seg = true -> atEndOrSlash rest = true ->
  cleanState (S fuel) rooted (seg +:+ rest) out dotdot =
  cleanState fuel rooted rest
    (rev (list_ascii_of_string seg) ++ pushSlash rooted out) dotdot.
Proof.
  unfold isCleanSegment. intros Hseg Hrest.
  apply andb_prop in Hseg as [Hseg Hns].
  apply andb_prop in Hseg as [Hseg Hdd].
  apply andb_prop in Hseg as [Hne Hd].
  destruct seg as [|c seg]; [done|].
  pose proof (copyElement_noSlash (String c seg) rest) as Hcopy.
  destruct (noSlash_cons _ _ Hns) as [Hc Hseg'].
  rewrite string_app_cons in *. cbn [cleanState]. rewrite Hc.
  assert (isDot c && atEndOrSlash (seg +:+ rest) = false) as ->.
  { destruct (isDot c) eqn:Hdot; [|done]. apply isDot_eq in Hdot as ->.
    destruct seg as [|c1 seg]; [done|]. rewrite string_app_cons. simpl.
    by destruct (noSlash_cons _ _ Hseg') as [-> _]. }
  assert (isDot c && match seg +:+ rest with
                     | String c1 r2 => isDot c1 && atEndOrSlash r2
                     | EmptyString => false
                     end = false) as ->.
  { destruct (isDot c) eqn:Hdot; [|done]. apply isDot_eq in Hdot as ->.
    destruct seg as [|c1 seg].
    - change ("" +:+ rest) with rest.
      destruct rest as [|c1 rest]; [done|]. simpl in Hrest.
      apply isSlash_eq in Hrest as ->. done.
    - rewrite string_app_cons.
      destruct (isDot c1) eqn:Hdot1; [|done]. apply isDot_eq in Hdot1 as ->.
      destruct seg as [|c2 seg]; [done|]. rewrite string_app_cons. simpl.
      destruct (noSlash_cons _ _ Hseg') as [_ H2].
      by destruct (noSlash_cons _ _ H2) as [-> _]. }
  rewrite Hcopy by done. done.
Qed.

(** Backtracking over an element without slashes removes it together with
    the slash before it. *)
Lemma backtrack_element pending seg out dotdot :
  isSlash pending = false ->
  forallb (fun c => negb (isSlash c)) seg = true ->
  (dotdot <= List.length out)%nat ->
  backtrack pending (seg ++ "/"%char :: out) dotdot = out.
Proof.
  revert pending. induction seg as [|a seg IH]; intros pending Hp Hseg Hd.
  - cbn [app backtrack]. rewrite Hp. cbn [negb andb].
    destruct (Nat.ltb_spec dotdot (List.length ("/"%char :: out)))
      as [_|Hge]; [|cbn [List.length] in Hge; lia].
    destruct out as [|c out]; [done|]. cbn [backtrack isSlash].
    by rewrite andb_false_r.
  - cbn in Hseg. apply andb_prop in Hseg as [Ha Hseg].
    cbn [app backtrack]. rewrite Hp. cbn [negb].
    destruct (Nat.ltb_spec dotdot (List.length (a :: seg ++ "/"%char :: out)))
      as [_|Hge].
    + apply IH; [by destruct (isSlash a)|done|done].
    + cbn [List.length] in Hge. rewrite length_app in Hge.
      cbn [List.length] in Hge. lia.
Qed.

(** Backtracking over an element that was written without a slash before
    it stops where the element began. *)
Lemma backtrack_element_floor pending seg out :
  isSlash pending = false ->
  forallb (fun c => negb (isSlash c)) seg = true ->
  backtrack pending (seg ++ out) (List.length out) = out.
Proof.
  revert pending. induction seg as [|a seg IH]; intros pending Hp Hseg.
  - cbn [app]. destruct out as [|c out]; [done|]. cbn [backtrack].
    by rewrite Nat.ltb_irrefl.
  - cbn in Hseg. apply andb_prop in Hseg as [Ha Hseg].
    cbn [app backtrack]. rewrite Hp. cbn [negb].
    destruct (Nat.ltb_spec (List.length out) (List.length (a :: seg ++ out)))
      as [_|Hge].
    + apply IH; [by destruct (isSlash a)|done].
    + cbn [List.length] in Hge. rewrite length_app in Hge. lia.
Qed.

Lemma pushSlash_cases rooted out :
  pushSlash rooted out = "/"%char :: out
  \/ (pushSlash rooted out = out
      /\ List.length out = if rooted then 1%nat else 0%nat).
Proof.
  unfold pushSlash. destruct rooted; cbn [andb negb orb].
  - rewrite orb_false_r.
    destruct (Nat.eqb_spec (List.length out) 1); cbn [negb]; auto.
  - destruct (Nat.eqb_spec (List.length out) 0); cbn [negb]; auto.
Qed.

Lemma noSlash_rev s :
  noSlash s = true ->
  forallb (fun c => negb (isSlash c)) (rev (list_ascii_of_string s)) = true.
Proof.
  unfold noSlash. rewrite !forallb_forall. intros Hs c Hc.
  apply Hs. by apply in_rev.
Qed.

(** An element followed by [..] leaves the state as it was. *)
Lemma cleanState_dotdot fuel rooted x rest out dotdot :
  cleanInv rooted out dotdot -> isCleanSegment x = true ->
  atEndOrSlash rest = true ->
  cleanState (S (S (S fuel))) rooted
    (x +:+ String "/" (String "." (String "." rest))) out dotdot
  = cleanState fuel rooted rest out dotdot.
Proof.
  intros [Hd Hroot] Hx Hrest.
  rewrite cleanState_element by done.
  change (cleanState (S (S fuel)) rooted
            (String "/" (String "." (String "." rest))) ?o ?d)
    with (cleanState (S fuel) rooted (String "." (String "." rest)) o d).
  cbn [cleanState isSlash isDot atEndOrSlash Ascii.eqb Bool.eqb andb].
  rewrite Hrest.
  assert (noSlash x = true /\ x <> "") as [Hns Hne].
  { unfold isCleanSegment in Hx.
    apply andb_prop in Hx as [Hx Hns]. apply andb_prop in Hx as [Hx _].
    apply andb_prop in Hx as [Hx _]. split; [done|].
    intros ->. done. }
  pose proof (noSlash_rev x Hns) as Hrev.
  assert (rev (list_ascii_of_string x) <> []) as Hrevne.
  { intros Hnil. apply (f_equal (@List.length _)) in Hnil.
    rewrite length_rev in Hnil. destruct x; [done|]. cbn in Hnil. lia. }
  destruct (rev (list_ascii_of_string x)) as [|last seg]; [done|].
  cbn in Hrev. apply andb_prop in Hrev as [Hlast Hseg].
  assert (isSlash last = false) as Hl by (by destruct (isSlash last)).
  cbn [app].
  destruct (Nat.ltb_spec dotdot (List.length (last :: seg ++ pushSlash rooted out)))
    as [_|Hge].
  - f_equal.
    destruct (pushSlash_cases rooted out) as [->|[-> Hlen]].
    + by apply backtrack_element.
    + assert (dotdot = List.length out) as ->.
      { destruct rooted; [|lia]. destruct (Hroot eq_refl) as [-> _]. lia. }
      by apply backtrack_element_floor.
  - cbn [List.length] in Hge. rewrite length_app in Hge.
    assert (List.length out <= List.length (pushSlash rooted out))%nat
      by (destruct (pushSlash_grows rooted out) as [E|E]; rewrite E;
          cbn [List.length]; lia).
    lia.
Qed.

(** [Clean] in terms of the state the loop ends in. *)
Lemma Clean_cons c0 tl :
  Clean (String c0 tl)
  = match (cleanState (S (String.length tl)) (isSlash c0)
             (if isSlash c0 then tl else String c0 tl)
             (if isSlash c0 then ["/"%char] else [])
             (if isSlash c0 then 1%nat else 0%nat)).1 with
    | [] => "."
    | o :: out => string_of_list_ascii (rev (o :: out))
    end.
Proof.
  unfold Clean. cbv zeta. cbn [String.length].
  destruct (isSlash c0); rewrite cleanLoop_state;
    by destruct (cleanState _ _ _ _ _).1.
Qed.

Lemma cleanInv_start rooted :
  cleanInv rooted (if rooted then ["/"%char] else [])
                  (if rooted then 1%nat else 0%nat).
Proof.
  destruct rooted; (split; [cbn; lia|]); [|done].
  intros _. split; [done|]. by exists [].
Qed.

(** The state in which [Clean] reads what follows a slash inside the
    path: it depends on what precedes the slash alone. *)
Lemma Clean_state_after c0 pre tl :
  let rooted := isSlash c0 in
  let before := if rooted then pre else String c0 pre in
  let st := cleanState (String.length before) rooted before
              (if rooted then ["/"%char] else [])
              (if rooted then 1%nat else 0%nat) in
  cleanInv rooted st.1 st.2
  /\ (cleanState (S (String.length (pre +:+ String "/" tl))) rooted
        (if rooted then pre +:+ String "/" tl
         else String c0 (pre +:+ String "/" tl))
        (if rooted then ["/"%char] else [])
        (if rooted then 1%nat else 0%nat))
     = cleanState (S (String.length tl)) rooted (String "/" tl) st.1 st.2.
Proof.
  cbv zeta. split; [apply cleanState_inv, cleanInv_start|].
  rewrite string_length_app. cbn [String.length].
  destruct (isSlash c0).
  - rewrite (cleanState_split _ (String.length pre)) by lia.
    apply cleanState_fuel; cbn [String.length]; lia.
  - rewrite <- string_app_cons.
    rewrite (cleanState_split _ (String.length (String c0 pre)))
      by (cbn [String.length]; lia).
    apply cleanState_fuel; cbn [String.length]; lia.
Qed.

(** [x/..] inside a path cancels, for a clean element [x], whatever
    stands before and after. *)
Lemma Clean_dotdot A x y :
  A <> "" -> isCleanSegment x = true ->
  Clean (A +:+ String "/" (x +:+ String "/" (String "." (String "."
           (String "/" y)))))
  = Clean (A +:+ String "/" y).
Proof.
  intros HA Hx. destruct A as [|c0 pre]; [done|].
  rewrite !string_app_cons, !Clean_cons.
  destruct (Clean_state_after c0 pre
              (x +:+ String "/" (String "." (String "." (String "/" y)))))
    as [Hinv ->].
  destruct (Clean_state_after c0 pre y) as [_ ->].
  set (st := cleanState _ _ _ _ _) in *.
  rewrite string_length_app. cbn [String.length].
  replace (S (String.length x + S (S (S (S (String.length y))))))
    with (S (S (S (S (String.length x + S (String.length y))))))
    by lia.
  change (cleanState (S (S (S (S ?f)))) ?r (String "/" ?t) ?o ?d)
    with (cleanState (S (S (S f))) r t o d).
  rewrite cleanState_dotdot by done.
  rewrite (cleanState_fuel (_ + _) (S (String.length y)))
    by (cbn [String.length]; lia).
  done.
Qed.

Lemma Join_two base formatted :
  formatted <> "" ->
  Join [base; formatted]
  = Clean (if String.eqb base "" then formatted
           else (base +:+ "/") +:+ formatted).
Proof.
  intros Hf. unfold Join. cbn [fold_left].
  destruct (Nat.eqb_spec (0 + String.length base + String.length formatted) 0)
    as [Hz|_].
  { destruct formatted; [done|]. cbn [String.length] in Hz. lia. }
  cbn [joinBuf String.eqb negb orb].
  destruct (String.eqb_spec base "") as [->|Hb].
  - cbn [negb orb String.eqb].
    destruct (String.eqb_spec formatted "") as [->|_]; [done|].
    cbn [negb]. done.
  - cbn [negb orb]. change ("" +:+ ?b) with b.
    destruct (String.eqb_spec base "") as [->|_]; [done|]. cbn [negb orb].
    done.
Qed.

(** [x/..] in what an accessor joins onto the base path cancels. *)
Lemma Join_dotdot base A x y :
  A <> "" -> isCleanSegment x = true ->
  Join [base; A +:+ String "/" (x +:+ String "/" (String "." (String "."
                 (String "/" y))))]
  = Join [base; A +:+ String "/" y].
Proof.
  intros HA Hx.
  rewrite !Join_two by (destruct A; [done|by rewrite string_app_cons]).
  destruct (String.eqb base ""); [by apply Clean_dotdot|].
  rewrite <- !string_app_assoc.
  apply Clean_dotdot; [|done].
  destruct base; [by destruct A|by rewrite !string_app_cons].
Qed.



Lemma slashPath_length segs :
  Forall (fun s => isCleanSegment s = true) segs ->
  (2 * List.length segs <= String.length (slashPath segs))%nat.
Proof.
  induction 1 as [|s segs Hs _ IH]; [done|].
  cbn [slashPath String.length List.length]. rewrite string_length_app.
  destruct s; [done|]. cbn [String.length]. lia.
Qed.

Lemma atEndOrSlash_slashPath segs : atEndOrSlash (slashPath segs) = true.
Proof. by destruct segs. Qed.

(** Clean elements after a rooted buffer are appended as they are. *)
Lemma cleanState_slashPath segs :
  Forall (fun s => isCleanSegment s = true) segs ->
  forall fuel out,
    (2 <= List.length out)%nat ->
    (String.length (slashPath segs) <= fuel)%nat ->
    string_of_list_ascii
      (rev (cleanState fuel true (slashPath segs) out 1).1)
    = string_of_list_ascii (rev out) +:+ slashPath segs.
Proof.
  induction 1 as [|s segs Hs Hall IH]; intros fuel out Hout Hfuel.
  { cbn [slashPath]. rewrite string_app_nil_r. by destruct fuel. }
  cbn [slashPath String.length] in *. rewrite string_length_app in Hfuel.
  assert (1 <= String.length s)%nat by (destruct s; [done|cbn; lia]).
  destruct fuel as [|[|fuel]]; [lia|lia|].
  change (cleanState (S (S fuel)) true (String "/" ?t) ?o ?d)
    with (cleanState (S fuel) true t o d).
  rewrite cleanState_element by (done || apply atEndOrSlash_slashPath).
  rewrite pushSlash_long by done.
  rewrite IH by (rewrite ?length_app; cbn [List.length]; lia).
  rewrite rev_app_distr. cbn [rev]. rewrite rev_involutive.
  rewrite !string_of_list_ascii_app, string_of_list_ascii_of_string.
  rewrite !string_app_assoc. done.
Qed.

(** Joining clean elements onto an empty or absolute base path leaves them
    at the end of the result. *)
Lemma Join_slashPath base s segs :
  emptyOrRooted base = true ->
  Forall (fun s => isCleanSegment s = true) (s :: segs) ->
  exists X, Join [base; slashPath (s :: segs)] = X +:+ slashPath (s :: segs).
Proof.
  intros Hbase Hall. inversion Hall as [|? ? Hs Hsegs]; subst.
  assert (1 <= String.length s)%nat as Hlen by (destruct s; [done|cbn; lia]).
  pose proof (slashPath_length segs Hsegs) as Hsp.
  assert (forall fuel out,
            rootedOut out ->
            (String.length (s +:+ slashPath segs) <= fuel)%nat ->
            exists X,
              match (cleanState fuel true (s +:+ slashPath segs) out 1).1 with
              | [] => "."
              | o :: out' => string_of_list_ascii (rev (o :: out'))
              end = X +:+ slashPath (s :: segs)) as Htail.
  { intros fuel out Hout Hfuel. rewrite string_length_app in Hfuel.
    destruct fuel as [|fuel]; [lia|].
    rewrite cleanState_element by (done || apply atEndOrSlash_slashPath).
    destruct (pushSlash_rooted out Hout) as [X HX].
    assert (2 <= List.length
                   (rev (list_ascii_of_string s) ++ pushSlash true out))%nat
      as Hlong.
    { rewrite length_app, length_rev.
      assert (1 <= List.length (pushSlash true out))%nat.
      { destruct Hout as [l ->].
        destruct (pushSlash_grows true (l ++ ["/"%char])) as [->| ->];
          rewrite ?length_app; cbn [List.length]; lia. }
      assert (List.length (list_ascii_of_string s) = String.length s)
        by (clear; induction s; cbn; congruence).
      lia. }
    pose proof (cleanState_slashPath segs Hsegs fuel _ Hlong ltac:(lia))
      as Hfin.
    rewrite rev_app_distr, string_of_list_ascii_app, rev_involutive,
      string_of_list_ascii_of_string, HX, !string_app_assoc in Hfin.
    exists X.
    destruct (cleanState fuel true (slashPath segs) _ 1).1 as [|o out'].
    - cbn in Hfin. destruct X; discriminate Hfin.
    - rewrite Hfin. done. }
  rewrite Join_two by done.
  destruct base as [|c base].
  - cbn [String.eqb slashPath]. rewrite Clean_cons.
    cbn [isSlash Ascii.eqb Bool.eqb andb].
    apply Htail; [by exists []|lia].
  - cbn in Hbase. apply isSlash_eq in Hbase as ->.
    cbn [String.eqb Ascii.eqb Bool.eqb slashPath].
    rewrite !string_app_cons, string_app_assoc. rewrite Clean_cons.
    cbn [isSlash Ascii.eqb Bool.eqb andb].
    rewrite <- (string_app_assoc base "/" (String "/" _)).
    destruct (Clean_state_after "/" (base +:+ "/") (s +:+ slashPath segs))
      as [[_ Hroot] Hsplit].
    cbn [isSlash Ascii.eqb Bool.eqb andb] in Hroot, Hsplit.
    rewrite Hsplit.
    destruct (Hroot eq_refl) as [Hd Hout]. rewrite Hd.
    change (cleanState (S ?f) true (String "/" ?t) ?o ?d)
      with (cleanState f true t o d).
    apply Htail; [done|lia].
Qed.

End PathStateFacts.

(** ** More on the accessors *)

Section RequestFacts.
Context `{Env}.
Variable s : AppEngineService.

(** The requests of a PATCH helper: none when the service URL does not
    parse (the call panics), else one PATCH of the target. *)
Lemma requestsOf_patch formatted payload w :
  requestsOf w
    (match callURLFor s formatted with
     | Panicked => Panicked
     | Returned u =>
         Returned (genericJSONDataAPIPatch (client s) (URL_String u)
                                           payload 200 w)
     end)
  = match url_Parse (URL_String (appEngineURL s)) with
    | inl _ => None
    | inr callURL =>
        Some [mkRequest PATCH (targetURL callURL formatted) (Some payload)]
    end.
Proof.
  destruct (url_Parse (URL_String (appEngineURL s))) as [err|callURL] eqn:Hp.
  - by rewrite (callURLFor_unparsable s formatted err Hp).
  - rewrite (patch_call s callURL Hp). cbv zeta. apply requestsOf_one.
Qed.

Lemma requestsOf_get {T : Type} `{Unmarshal T} formatted (zero : T) w :
  requestsOf w
    (match callURLFor s formatted with
     | Panicked => Panicked
     | Returned u =>
         Returned (genericJSONDataAPIGET (client s) zero (URL_String u) 200 w)
     end)
  = match url_Parse (URL_String (appEngineURL s)) with
    | inl _ => None
    | inr callURL => Some [mkRequest GET (targetURL callURL formatted) None]
    end.
Proof.
  destruct (url_Parse (URL_String (appEngineURL s))) as [err|callURL] eqn:Hp.
  - by rewrite (callURLFor_unparsable s formatted err Hp).
  - rewrite (callURLFor_parsed s callURL Hp).
    destruct (genericJSONDataAPIGET_spec (client s) zero
                (targetURL callURL formatted) w) as [Hw _].
    unfold targetURL in *.
    destruct (genericJSONDataAPIGET _ _ _ _ _) as [a w']. cbn in Hw.
    subst w'. apply requestsOf_one.
Qed.

(** A helper that post-processes [GetDevice] leaves its world and its
    error as they are. *)
Lemma after_GetDevice {A : Type} realm deviceIdentifier deviceIdentifierType
    (onError : A) (project : DeviceDetails -> A) w :
  let o := GetDevice s realm deviceIdentifier deviceIdentifierType w in
  let o' := match o with
            | Panicked => Panicked
            | Returned ((deviceDetails, err), w') =>
                match err with
                | Some e => Returned ((onError, Some e), w')
                | None => Returned ((project deviceDetails, None), w')
                end
            end in
  requestsOf w o' = requestsOf w o /\ errorOf o' = errorOf o.
Proof.
  cbv zeta. destruct (GetDevice _ _ _ _ _) as [[[d [e|]] w']|]; done.
Qed.

Ltac accessor_requests :=
  cbv zeta;
  first [ rewrite requestsOf_patch | rewrite requestsOf_get ].

(** X1: when the service URL does not parse, GetDeviceListPaginator returns
    the parse error, and ListDevices returns it with an empty list,
    without a single request. *)
Theorem ListDevices_unparsable_URL (realm : string) (pageSize : Z)
    (fuel : nat) (w : World) (err : error) :
  url_Parse (URL_String (appEngineURL s)) = inl err ->
  GetDeviceListPaginator s realm pageSize = inl err
  /\ ListDevices fuel s realm w = Some (([], Some err), w).
Proof.
  intros Hp. unfold ListDevices, GetDeviceListPaginator. by rewrite Hp.
Qed.

(** X2: the other accessors drop the parse error: when the service URL
    does not parse they panic on the nil URL, before any request.  Only
    an identifier that needs no lookup is still returned. *)
Theorem accessors_panic_on_unparsable_URL (realm deviceIdentifier : string)
    (deviceIdentifierType : DeviceIdentifierType)
    (aliasTag deviceAlias metadataKey metadataValue : string)
    (inhibit : bool) (w : World) (err : error) :
  url_Parse (URL_String (appEngineURL s)) = inl err ->
  GetDevice s realm deviceIdentifier deviceIdentifierType w = Panicked
  /\ ListDeviceInterfaces s realm deviceIdentifier deviceIdentifierType w
     = Panicked
  /\ GetDevicesStats s realm w = Panicked
  /\ AddDeviceAlias s realm deviceIdentifier aliasTag deviceAlias w = Panicked
  /\ DeleteDeviceAlias s realm deviceIdentifier aliasTag w = Panicked
  /\ InhibitDevice s realm deviceIdentifier deviceIdentifierType inhibit w
     = Panicked
  /\ SetDeviceMetadata s realm deviceIdentifier deviceIdentifierType
       metadataKey metadataValue w = Panicked
  /\ DeleteDeviceMetadata s realm deviceIdentifier deviceIdentifierType
       metadataKey w = Panicked
  /\ GetDeviceIDFromAlias s realm deviceAlias w = Panicked
  /\ ListDeviceAliases s realm deviceIdentifier w = Panicked
  /\ ListDeviceMetadata s realm deviceIdentifier deviceIdentifierType w
     = Panicked
  /\ GetDeviceIDFromDeviceIdentifier s realm deviceAlias AstarteDeviceAlias w
     = Panicked
  /\ GetDeviceIDFromDeviceIdentifier s realm deviceIdentifier AstarteDeviceID w
     = Returned ((deviceIdentifier, None), w).
Proof.
  intros Hp.
  unfold GetDeviceIDFromDeviceIdentifier, GetDeviceIDFromAlias,
    ListDeviceAliases, ListDeviceMetadata, GetDevice, ListDeviceInterfaces,
    GetDevicesStats, AddDeviceAlias, DeleteDeviceAlias, InhibitDevice,
    SetDeviceMetadata, DeleteDeviceMetadata.
  cbv zeta. cbn [resolveDeviceIdentifierType].
  rewrite !(fun f => callURLFor_unparsable s f err Hp). done.
Qed.

(** X3: what an accessor sends does not depend on the world it runs in,
    neither on the backend's state nor on the requests made before. *)
Theorem accessor_requests_ignore_world (realm deviceIdentifier : string)
    (deviceIdentifierType : DeviceIdentifierType)
    (aliasTag deviceAlias metadataKey metadataValue : string)
    (inhibit : bool) (w1 w2 : World) :
  requestsOf w1 (GetDevice s realm deviceIdentifier deviceIdentifierType w1)
  = requestsOf w2 (GetDevice s realm deviceIdentifier deviceIdentifierType w2)
  /\ requestsOf w1 (ListDeviceInterfaces s realm deviceIdentifier
                      deviceIdentifierType w1)
     = requestsOf w2 (ListDeviceInterfaces s realm deviceIdentifier
                        deviceIdentifierType w2)
  /\ requestsOf w1 (GetDevicesStats s realm w1)
     = requestsOf w2 (GetDevicesStats s realm w2)
  /\ requestsOf w1 (AddDeviceAlias s realm deviceIdentifier aliasTag
                      deviceAlias w1)
     = requestsOf w2 (AddDeviceAlias s realm deviceIdentifier aliasTag
                        deviceAlias w2)
  /\ requestsOf w1 (DeleteDeviceAlias s realm deviceIdentifier aliasTag w1)
     = requestsOf w2 (DeleteDeviceAlias s realm deviceIdentifier aliasTag w2)
  /\ requestsOf w1 (InhibitDevice s realm deviceIdentifier
                      deviceIdentifierType inhibit w1)
     = requestsOf w2 (InhibitDevice s realm deviceIdentifier
                        deviceIdentifierType inhibit w2)
  /\ requestsOf w1 (SetDeviceMetadata s realm deviceIdentifier
                      deviceIdentifierType metadataKey metadataValue w1)
     = requestsOf w2 (SetDeviceMetadata s realm deviceIdentifier
                        deviceIdentifierType metadataKey metadataValue w2)
  /\ requestsOf w1 (DeleteDeviceMetadata s realm deviceIdentifier
                      deviceIdentifierType metadataKey w1)
     = requestsOf w2 (DeleteDeviceMetadata s realm deviceIdentifier
                        deviceIdentifierType metadataKey w2)
  /\ requestsOf w1 (GetDeviceIDFromAlias s realm deviceAlias w1)
     = requestsOf w2 (GetDeviceIDFromAlias s realm deviceAlias w2)
  /\ requestsOf w1 (ListDeviceAliases s realm deviceIdentifier w1)
     = requestsOf w2 (ListDeviceAliases s realm deviceIdentifier w2)
  /\ requestsOf w1 (ListDeviceMetadata s realm deviceIdentifier
                      deviceIdentifierType w1)
     = requestsOf w2 (ListDeviceMetadata s realm deviceIdentifier
                        deviceIdentifierType w2).
Proof.
  assert (forall realm id ty,
            requestsOf w1 (GetDevice s realm id ty w1)
            = requestsOf w2 (GetDevice s realm id ty w2)) as Hget.
  { intros r i t. unfold GetDevice. by rewrite !requestsOf_get. }
  unfold GetDeviceIDFromAlias, ListDeviceAliases, ListDeviceMetadata.
  repeat split;
    try (rewrite (proj1 (after_GetDevice _ _ _ _ _ w1)),
           (proj1 (after_GetDevice _ _ _ _ _ w2)); apply Hget);
    try apply Hget;
    unfold ListDeviceInterfaces, GetDevicesStats, AddDeviceAlias,
      DeleteDeviceAlias, InhibitDevice, SetDeviceMetadata,
      DeleteDeviceMetadata; cbv zeta;
    first [ by rewrite !requestsOf_patch | by rewrite !requestsOf_get ].
Qed.

End RequestFacts.

Section ParsedFacts.
Context `{Env}.
Variable s : AppEngineService.
Variable callURL : URL.
Hypothesis parsed : url_Parse (URL_String (appEngineURL s)) = inr callURL.

Ltac parsed_requests :=
  cbv zeta;
  first [ rewrite requestsOf_patch | rewrite requestsOf_get ];
  rewrite parsed.

(** X4: GetDevice, ListDeviceInterfaces and GetDevicesStats each send one
    GET without a body: GetDevice to the path of the resolved identifier
    type, ListDeviceInterfaces to that path followed by [/interfaces],
    GetDevicesStats to [/v1/{realm}/stats/devices], each joined onto the
    service's base path. *)
Theorem get_accessors_requests (realm deviceIdentifier : string)
    (deviceIdentifierType : DeviceIdentifierType) (w : World) :
  let device :=
    "/v1/" +:+ realm +:+ "/" +:+
    devicePath deviceIdentifier
      (resolveDeviceIdentifierType deviceIdentifier deviceIdentifierType) in
  requestsOf w (GetDevice s realm deviceIdentifier deviceIdentifierType w)
  = Some [mkRequest GET (targetURL callURL device) None]
  /\ requestsOf w (ListDeviceInterfaces s realm deviceIdentifier
                     deviceIdentifierType w)
     = Some [mkRequest GET (targetURL callURL (device +:+ "/interfaces")) None]
  /\ requestsOf w (GetDevicesStats s realm w)
     = Some [mkRequest GET
               (targetURL callURL ("/v1/" +:+ realm +:+ "/stats/devices"))
               None].
Proof.
  unfold GetDevice, ListDeviceInterfaces, GetDevicesStats.
  repeat split; parsed_requests; [done| |done].
  by rewrite !string_app_assoc.
Qed.

(** X5: GetDeviceIDFromAlias always looks the identifier up as an alias
    and ListDeviceAliases always as a device ID, whatever the identifier
    looks like, while ListDeviceMetadata resolves it as GetDevice does;
    each makes GetDevice's request and returns GetDevice's error. *)
Theorem helpers_follow_GetDevice (realm deviceIdentifier : string)
    (deviceIdentifierType : DeviceIdentifierType) (w : World) :
  (requestsOf w (GetDeviceIDFromAlias s realm deviceIdentifier w)
   = Some [mkRequest GET
             (targetURL callURL
                ("/v1/" +:+ realm +:+ "/" +:+
                 devicePath deviceIdentifier AstarteDeviceAlias))
             None]
   /\ errorOf (GetDeviceIDFromAlias s realm deviceIdentifier w)
      = errorOf (GetDevice s realm deviceIdentifier AstarteDeviceAlias w))
  /\ (requestsOf w (ListDeviceAliases s realm deviceIdentifier w)
      = Some [mkRequest GET
                (targetURL callURL
                   ("/v1/" +:+ realm +:+ "/" +:+
                    devicePath deviceIdentifier AstarteDeviceID))
                None]
      /\ errorOf (ListDeviceAliases s realm deviceIdentifier w)
         = errorOf (GetDevice s realm deviceIdentifier AstarteDeviceID w))
  /\ (requestsOf w (ListDeviceMetadata s realm deviceIdentifier
                      deviceIdentifierType w)
      = requestsOf w (GetDevice s realm deviceIdentifier
                        deviceIdentifierType w)
      /\ errorOf (ListDeviceMetadata s realm deviceIdentifier
                    deviceIdentifierType w)
         = errorOf (GetDevice s realm deviceIdentifier
                      deviceIdentifierType w)).
Proof.
  unfold GetDeviceIDFromAlias, ListDeviceAliases, ListDeviceMetadata.
  repeat split;
    first [ apply after_GetDevice
          | rewrite (proj1 (after_GetDevice s _ _ _ _ _ w));
            unfold GetDevice; parsed_requests; done ].
Qed.

(** X7: when the device-ID path of [devicePath] is [devices/{id}], the
    alias helpers address one resource: ListDeviceAliases reads the URL
    that AddDeviceAlias and DeleteDeviceAlias patch, which is also the URL
    of InhibitDevice for a device ID. *)
Theorem alias_helpers_share_URL (realm deviceID aliasTag deviceAlias : string)
    (inhibit : bool) (w : World) :
  devicePath deviceID AstarteDeviceID = "devices/" +:+ deviceID ->
  exists u,
    requestsOf w (ListDeviceAliases s realm deviceID w)
    = Some [mkRequest GET u None]
    /\ requestsOf w (AddDeviceAlias s realm deviceID aliasTag deviceAlias w)
       = Some [mkRequest PATCH u
                 (Some (JObject [("aliases",
                                  JObject [(aliasTag, JString deviceAlias)])]))]
    /\ requestsOf w (DeleteDeviceAlias s realm deviceID aliasTag w)
       = Some [mkRequest PATCH u
                 (Some (JObject [("aliases", JObject [(aliasTag, JNull)])]))]
    /\ requestsOf w (InhibitDevice s realm deviceID AstarteDeviceID inhibit w)
       = Some [mkRequest PATCH u
                 (Some (JObject [("credentials_inhibited", JBool inhibit)]))].
Proof.
  intros Hpath.
  exists (targetURL callURL ("/v1/" +:+ realm +:+ "/devices/" +:+ deviceID)).
  unfold ListDeviceAliases, AddDeviceAlias, DeleteDeviceAlias, InhibitDevice.
  repeat split.
  - rewrite (proj1 (after_GetDevice s _ _ _ _ _ w)).
    unfold GetDevice. parsed_requests.
    cbn [resolveDeviceIdentifierType]. by rewrite Hpath.
  - by parsed_requests.
  - by parsed_requests.
  - parsed_requests. cbn [resolveDeviceIdentifierType]. by rewrite Hpath.
Qed.

End ParsedFacts.

Section LookupFacts.
Context `{Env}.

(** X14: the helpers built on GetDevice never return data next to an
    error: GetDeviceIDFromAlias returns the empty string and
    ListDeviceAliases and ListDeviceMetadata the nil map, even when
    GetDevice returned partly decoded details with the error. *)
Theorem helpers_discard_details_on_error (s : AppEngineService)
    (realm deviceIdentifier : string)
    (deviceIdentifierType : DeviceIdentifierType) (w : World) :
  match GetDeviceIDFromAlias s realm deviceIdentifier w with
  | Returned ((id, Some _), _) => id = ""
  | _ => True
  end
  /\ match ListDeviceAliases s realm deviceIdentifier w with
     | Returned ((aliases, Some _), _) => aliases = ∅
     | _ => True
     end
  /\ match ListDeviceMetadata s realm deviceIdentifier deviceIdentifierType w
     with
     | Returned ((metadata, Some _), _) => metadata = ∅
     | _ => True
     end.
Proof.
  unfold GetDeviceIDFromAlias, ListDeviceAliases, ListDeviceMetadata.
  repeat split;
    by destruct (GetDevice _ _ _ _ _) as [[[d [e1|]] w1]|].
Qed.

(** X6: with autodetection GetDeviceIDFromDeviceIdentifier returns an
    identifier of the canonical shape as it is, without a request, and
    looks every other identifier up as an alias: one GET without a body
    to the alias path of [devicePath] under the realm, with the device ID
    decoded from a 200 answer as result, or the empty string with the
    error; on a service URL that does not parse that lookup panics. *)
Theorem autodetect_dispatch (s : AppEngineService)
    (realm deviceIdentifier : string) (w : World) :
  (IsValidAstarteDeviceID deviceIdentifier = true ->
   GetDeviceIDFromDeviceIdentifier s realm deviceIdentifier
     AutodiscoverDeviceIdentifier w
   = Returned ((deviceIdentifier, None), w))
  /\ (IsValidAstarteDeviceID deviceIdentifier = false ->
      match url_Parse (URL_String (appEngineURL s)) with
      | inl _ =>
          GetDeviceIDFromDeviceIdentifier s realm deviceIdentifier
            AutodiscoverDeviceIdentifier w
          = Panicked
      | inr callURL =>
          let req :=
            mkRequest GET
              (targetURL callURL
                 ("/v1/" +:+ realm +:+ "/" +:+
                  devicePath deviceIdentifier AstarteDeviceAlias))
              None in
          GetDeviceIDFromDeviceIdentifier s realm deviceIdentifier
            AutodiscoverDeviceIdentifier w
          = Returned (lookupAnswer (roundTrip (client s) req (backend w)).1,
                      {| backend := (roundTrip (client s) req (backend w)).2;
                         sent := sent w ++ [req] |})
      end).
Proof.
  unfold GetDeviceIDFromDeviceIdentifier. cbv zeta.
  cbn [resolveDeviceIdentifierType].
  split; intros ->; [done|].
  apply alias_lookup_run.
Qed.

End LookupFacts.

(** ** More on ListDevices *)

Section ListDevicesFacts.
Context `{Env}.

(** The requests of a traversal are fetches of its collection bounded by
    its page size. *)
Lemma drive_fetches fuel :
  forall (d d' : DeviceListPaginator) (w w' : World) pages r,
    drive fuel d w = Some (pages, r, d', w') ->
    exists reqs,
      sent w' = sent w ++ reqs
      /\ Forall (boundedFetch (pageSize d) (baseURL d)) reqs.
Proof.
  induction fuel as [|fuel IH]; intros d d' w w' pages r Hdrive; [done|].
  cbn [drive] in Hdrive. unfold HasNextPage in Hdrive.
  destruct (hasNextPage d) eqn:Hnext.
  2:{ simplify_eq. exists []. by rewrite app_nil_r. }
  destruct (GetNextPage_step d w) as (Hsize & Hbase & Hsent).
  specialize (Hsent Hnext).
  destruct (GetNextPage d w) as [[[page err] d1] w1]. cbn in *.
  assert (boundedFetch (pageSize d) (baseURL d)
            (pageRequest (baseURL d)
               (<[limitParam := [Itoa (pageSize d)]]> (nextQuery d)))) as Hreq.
  { eexists. split; [|reflexivity]. apply lookup_insert_eq. }
  destruct err as [e|].
  { simplify_eq. eexists. split; [done|]. by constructor. }
  destruct (drive fuel d1 w1) as [[[[pages1 r1] d2] w2]|] eqn:Hrest; [|done].
  simplify_eq. destruct (IH _ _ _ _ _ _ Hrest) as (reqs & Hsent2 & Hall).
  eexists (_ :: reqs). rewrite Hsent2, Hsent, <- app_assoc. split; [done|].
  constructor; [done|]. by rewrite <- Hsize, <- Hbase.
Qed.

(** X8: whatever ListDevices returns, all it has sent are GET requests
    without a body for the realm's device collection, each bounded by
    [defaultPageSize]; it never sends anything else. *)
Theorem ListDevices_only_fetches (s : AppEngineService) (realm : string)
    (fuel : nat) (w w' : World) (result : list string * option error) :
  ListDevices fuel s realm w = Some (result, w') ->
  exists reqs,
    sent w' = sent w ++ reqs
    /\ Forall (fun req =>
                 reqMethod req = GET /\ reqPayload req = None
                 /\ exists d,
                      GetDeviceListPaginator s realm defaultPageSize = inr d
                      /\ boundedFetch defaultPageSize (baseURL d) req) reqs.
Proof.
  unfold ListDevices.
  destruct (GetDeviceListPaginator s realm defaultPageSize) as [err|d] eqn:Hd.
  { intros; simplify_eq. exists []. by rewrite app_nil_r. }
  assert (pageSize d = defaultPageSize) as Hsize.
  { unfold GetDeviceListPaginator in Hd.
    destruct (url_Parse _); by simplify_eq. }
  rewrite ListDevices_loop_drive.
  destruct (drive fuel d w) as [[[[pages r] d2] w2]|] eqn:Hdrive; [|done].
  destruct (drive_fetches _ _ _ _ _ _ _ Hdrive) as (reqs & Hsent & Hall).
  intros Hres. assert (w' = w2) as -> by (destruct r; by simplify_eq).
  exists reqs. split; [done|].
  rewrite Hsize in Hall. eapply Forall_impl; [exact Hall|].
  intros req Hreq. destruct Hreq as (q & Hq & ->) eqn:E. clear E.
  repeat split; try done. exists d. split; [done|]. by exists q.
Qed.

(** Against a backend that always hands out a continuation token a
    traversal never ends. *)
Lemma drive_endless (c : Client) :
  endlessBackend c ->
  forall fuel (d : DeviceListPaginator) (w : World),
    pagClient d = c -> hasNextPage d = true -> drive fuel d w = None.
Proof.
  intros Hendless. induction fuel as [|fuel IH]; intros d w Hc Hnext; [done|].
  cbn [drive]. unfold HasNextPage. rewrite Hnext.
  unfold GetNextPage, genericJSONDataAPIGET, exchange. rewrite Hnext, Hc.
  cbn [negb].
  match goal with
  | |- context [roundTrip c ?req ?b] =>
      destruct (Hendless req b) as (body & b' & page & token & -> & Hdec)
  end.
  cbn. rewrite Hdec. cbn. by rewrite IH.
Qed.

(** X9: ListDevices puts no bound on the number of pages: against a
    backend that answers every fetch with a continuation token it never
    returns. *)
Theorem ListDevices_endless (s : AppEngineService) (realm : string)
    (callURL : URL) (w : World) :
  url_Parse (URL_String (appEngineURL s)) = inr callURL ->
  endlessBackend (client s) ->
  forall fuel, ListDevices fuel s realm w = None.
Proof.
  intros Hp Hendless fuel. unfold ListDevices, GetDeviceListPaginator.
  rewrite Hp, ListDevices_loop_drive.
  by rewrite (drive_endless (client s) Hendless).
Qed.

End ListDevicesFacts.

(** ** Request paths *)

Section PathFactsOfAccessors.
Context `{Env}.
Import PathStateFacts.

Lemma callURLFor_Join (s : AppEngineService) (f1 f2 : string) :
  (forall base, path.Join [base; f1] = path.Join [base; f2]) ->
  callURLFor s f1 = callURLFor s f2.
Proof.
  intros Hjoin. unfold callURLFor.
  destruct (url_Parse (URL_String (appEngineURL s))); [done|].
  by rewrite Hjoin.
Qed.

Lemma device_path_dotdot base realm x y :
  isCleanSegment x = true ->
  path.Join [base; "/v1/" +:+ realm +:+ "/devices/" +:+ (x +:+ "/../" +:+ y)]
  = path.Join [base; "/v1/" +:+ realm +:+ "/devices/" +:+ y].
Proof.
  intros Hx.
  assert (forall Z, "/v1/" +:+ realm +:+ "/devices/" +:+ Z
                    = ("/v1/" +:+ realm +:+ "/devices") +:+ String "/" Z)
    as Hshape by (intros Z; by rewrite !string_app_assoc).
  rewrite !Hshape. by apply Join_dotdot.
Qed.

Lemma realm_path_dotdot base x y rest :
  isCleanSegment x = true ->
  path.Join [base; "/v1/" +:+ (x +:+ "/../" +:+ y) +:+ rest]
  = path.Join [base; "/v1/" +:+ y +:+ rest].
Proof.
  intros Hx. rewrite !string_app_assoc.
  by apply (Join_dotdot base "/v1" x (y +:+ rest)).
Qed.

(** X12: device identifiers are formatted into the path as they are, and
    [path.Join] resolves [..] in them: for a clean path element [x],
    AddDeviceAlias and DeleteDeviceAlias on the device ID [x/../y] do, in
    every world, exactly what they do on [y]. *)
Theorem alias_ops_resolve_dotdot (s : AppEngineService)
    (realm x y aliasTag deviceAlias : string) (w : World) :
  isCleanSegment x = true ->
  AddDeviceAlias s realm (x +:+ "/../" +:+ y) aliasTag deviceAlias w
  = AddDeviceAlias s realm y aliasTag deviceAlias w
  /\ DeleteDeviceAlias s realm (x +:+ "/../" +:+ y) aliasTag w
     = DeleteDeviceAlias s realm y aliasTag w.
Proof.
  intros Hx. unfold AddDeviceAlias, DeleteDeviceAlias.
  rewrite (callURLFor_Join s _ _
             (fun base => device_path_dotdot base realm x y Hx)).
  done.
Qed.

(** X13: the same holds for the realm: for a clean path element [x], the
    realm [x/../y] gives the paginator, the device list and the stats
    request of the realm [y]. *)
Theorem realm_resolves_dotdot (s : AppEngineService) (x y : string)
    (pageSize : Z) (fuel : nat) (w : World) :
  isCleanSegment x = true ->
  GetDeviceListPaginator s (x +:+ "/../" +:+ y) pageSize
  = GetDeviceListPaginator s y pageSize
  /\ ListDevices fuel s (x +:+ "/../" +:+ y) w = ListDevices fuel s y w
  /\ GetDevicesStats s (x +:+ "/../" +:+ y) w = GetDevicesStats s y w.
Proof.
  intros Hx.
  assert (forall P, GetDeviceListPaginator s (x +:+ "/../" +:+ y) P
                    = GetDeviceListPaginator s y P) as Hpag.
  { intros P. unfold GetDeviceListPaginator.
    destruct (url_Parse (URL_String (appEngineURL s))); [done|].
    by rewrite realm_path_dotdot. }
  split; [apply Hpag|]. split.
  - unfold ListDevices. by rewrite Hpag.
  - unfold GetDevicesStats.
    by rewrite (callURLFor_Join s _ _
                  (fun base => realm_path_dotdot base x y "/stats/devices" Hx)).
Qed.

Variable s : AppEngineService.
Variable callURL : URL.
Hypothesis parsed : url_Parse (URL_String (appEngineURL s)) = inr callURL.
Hypothesis rooted : emptyOrRooted (Path callURL) = true.


(** X11: for a realm and a device ID that are clean path elements, and a
    service path that is empty or absolute, AddDeviceAlias and
    DeleteDeviceAlias address a path that ends with
    [/v1/{realm}/devices/{deviceID}] and GetDevicesStats one that ends
    with [/v1/{realm}/stats/devices]. *)
Theorem clean_identifiers_keep_their_path (realm deviceID aliasTag deviceAlias : string)
    (w : World) :
  isCleanSegment realm = true -> isCleanSegment deviceID = true ->
  (exists p, HasSuffix p ("/v1/" +:+ realm +:+ "/devices/" +:+ deviceID)
        /\ requestsOf w (AddDeviceAlias s realm deviceID aliasTag deviceAlias w)
           = Some [mkRequest PATCH (URL_String (setPath callURL p))
                     (Some (JObject [("aliases",
                                      JObject [(aliasTag,
                                                JString deviceAlias)])]))])
  /\ (exists p, HasSuffix p ("/v1/" +:+ realm +:+ "/devices/" +:+ deviceID)
        /\ requestsOf w (DeleteDeviceAlias s realm deviceID aliasTag w)
           = Some [mkRequest PATCH (URL_String (setPath callURL p))
                     (Some (JObject [("aliases",
                                      JObject [(aliasTag, JNull)])]))])
  /\ (exists p, HasSuffix p ("/v1/" +:+ realm +:+ "/stats/devices")
        /\ requestsOf w (GetDevicesStats s realm w)
           = Some [mkRequest GET (URL_String (setPath callURL p)) None]).
Proof.
  intros Hrealm Hid.
  assert ("/v1/" +:+ realm +:+ "/devices/" +:+ deviceID
          = slashPath ["v1"; realm; "devices"; deviceID]) as Hdev
    by (cbn [slashPath]; by rewrite string_app_nil_r).
  assert ("/v1/" +:+ realm +:+ "/stats/devices"
          = slashPath ["v1"; realm; "stats"; "devices"]) as Hstats
    by done.
  destruct (Join_slashPath (Path callURL) "v1" [realm; "devices"; deviceID]
              rooted) as [X HX]; [by repeat constructor|].
  destruct (Join_slashPath (Path callURL) "v1" [realm; "stats"; "devices"]
              rooted) as [Y HY]; [by repeat constructor|].
  unfold AddDeviceAlias, DeleteDeviceAlias, GetDevicesStats.
  repeat split.
  - eexists. split; [|rewrite requestsOf_patch, parsed; reflexivity].
    rewrite Hdev, HX. apply HasSuffix_app.
  - eexists. split; [|rewrite requestsOf_patch, parsed; reflexivity].
    rewrite Hdev, HX. apply HasSuffix_app.
  - eexists. split; [|rewrite requestsOf_get, parsed; reflexivity].
    rewrite Hstats, HY. apply HasSuffix_app.
Qed.

End PathFactsOfAccessors.

(** ** The service path *)

Section ServicePathFacts.
Context `{Env}.
Import path PathFacts PathStateFacts.

(** A slash at the end of the base path is cleaned away. *)
Lemma Join_trailing_slash base formatted :
  Join [base +:+ "/"; String "/" formatted]
  = Join [base; String "/" formatted].
Proof.
  rewrite !Join_two by done.
  destruct base as [|c pre].
  - change ("" +:+ "/") with "/". cbn [String.eqb].
    change (("/" +:+ "/") +:+ ?x) with (String "/" (String "/" x)).
    by rewrite !Clean_cons.
  - rewrite !string_app_cons. cbn [String.eqb].
    rewrite !string_app_assoc.
    repeat change ("/" +:+ ?x) with (String "/" x).
    rewrite !Clean_cons.
    destruct (Clean_state_after c pre (String "/" (String "/" formatted)))
      as [_ ->].
    destruct (Clean_state_after c pre (String "/" formatted)) as [_ ->].
    done.
Qed.

Variables s1 s2 : AppEngineService.
Variable callURL : URL.
Hypothesis parsed1 : url_Parse (URL_String (appEngineURL s1)) = inr callURL.
Hypothesis parsed2 :
  url_Parse (URL_String (appEngineURL s2))
  = inr (setPath callURL (Path callURL +:+ "/")).
Hypothesis same_client : client s1 = client s2.

Lemma callURLFor_trailing_slash formatted :
  callURLFor s2 (String "/" formatted) = callURLFor s1 (String "/" formatted).
Proof.
  unfold callURLFor. rewrite parsed1, parsed2.
  cbn [setPath Path Scheme Host RawQuery].
  by rewrite Join_trailing_slash.
Qed.

(** X15: a slash at the end of the service URL's path makes no
    difference: the paginator, the device list and every accessor behave
    as without it. *)
Theorem trailing_slash_is_ignored (realm deviceIdentifier : string)
    (deviceIdentifierType : DeviceIdentifierType)
    (aliasTag deviceAlias metadataKey metadataValue : string)
    (inhibit : bool) (pageSize : Z) (fuel : nat) (w : World) :
  GetDeviceListPaginator s2 realm pageSize
  = GetDeviceListPaginator s1 realm pageSize
  /\ ListDevices fuel s2 realm w = ListDevices fuel s1 realm w
  /\ GetDevice s2 realm deviceIdentifier deviceIdentifierType w
     = GetDevice s1 realm deviceIdentifier deviceIdentifierType w
  /\ ListDeviceInterfaces s2 realm deviceIdentifier deviceIdentifierType w
     = ListDeviceInterfaces s1 realm deviceIdentifier deviceIdentifierType w
  /\ GetDevicesStats s2 realm w = GetDevicesStats s1 realm w
  /\ AddDeviceAlias s2 realm deviceIdentifier aliasTag deviceAlias w
     = AddDeviceAlias s1 realm deviceIdentifier aliasTag deviceAlias w
  /\ DeleteDeviceAlias s2 realm deviceIdentifier aliasTag w
     = DeleteDeviceAlias s1 realm deviceIdentifier aliasTag w
  /\ InhibitDevice s2 realm deviceIdentifier deviceIdentifierType inhibit w
     = InhibitDevice s1 realm deviceIdentifier deviceIdentifierType inhibit w
  /\ SetDeviceMetadata s2 realm deviceIdentifier deviceIdentifierType
       metadataKey metadataValue w
     = SetDeviceMetadata s1 realm deviceIdentifier deviceIdentifierType
         metadataKey metadataValue w
  /\ DeleteDeviceMetadata s2 realm deviceIdentifier deviceIdentifierType
       metadataKey w
     = DeleteDeviceMetadata s1 realm deviceIdentifier deviceIdentifierType
         metadataKey w.
Proof.
  assert (forall P, GetDeviceListPaginator s2 realm P
                    = GetDeviceListPaginator s1 realm P) as Hpag.
  { intros P. unfold GetDeviceListPaginator. rewrite parsed1, parsed2.
    cbn [setPath Path Scheme Host RawQuery].
    change ("/v1/" +:+ ?r) with (String "/" ("v1/" +:+ r)).
    by rewrite Join_trailing_slash, same_client. }
  split; [apply Hpag|].
  split; [unfold ListDevices; by rewrite Hpag|].
  unfold GetDevice, ListDeviceInterfaces, GetDevicesStats, AddDeviceAlias,
    DeleteDeviceAlias, InhibitDevice, SetDeviceMetadata, DeleteDeviceMetadata.
  cbv zeta.
  change ("/v1/" +:+ ?r) with (String "/" ("v1/" +:+ r)).
  rewrite !callURLFor_trailing_slash, same_client. done.
Qed.

End ServicePathFacts.

Lemma trailing_slash_is_ignored_witness :
  url_Parse (URL_String (appEngineURL Fake.service))
  = inr (mkURL "" "" "/appengine" "")
  /\ url_Parse (URL_String (appEngineURL FakeSlash.service))
     = inr (setPath (mkURL "" "" "/appengine" "") ("/appengine" +:+ "/"))
  /\ client Fake.service = client FakeSlash.service
  /\ GetDevicesStats FakeSlash.service "test" (Fake.world [] None)
     = GetDevicesStats Fake.service "test" (Fake.world [] None).
Proof.
  split; [reflexivity|]. split; [reflexivity|]. split; [reflexivity|].
  destruct (trailing_slash_is_ignored Fake.service FakeSlash.service
              (mkURL "" "" "/appengine" "") eq_refl eq_refl eq_refl
              "test" "dev" AstarteDeviceID "t1" "foo" "k" "v" true 2 0
              (Fake.world [] None)) as (_ & _ & _ & _ & Hstats & _).
  exact Hstats.
Defined.

(** ** More runs against the fake backends *)

Lemma ListDevices_unparsable_URL_witness :
  @url_Parse Broken.env (@URL_String Broken.env (appEngineURL Broken.service))
  = inl (ParseError "/appengine")
  /\ GetDeviceListPaginator Broken.service "test" 2
     = inl (ParseError "/appengine")
  /\ ListDevices 5 Broken.service "test" Broken.world
     = Some (([], Some (ParseError "/appengine")), Broken.world).
Proof.
  split; [reflexivity|].
  exact (ListDevices_unparsable_URL Broken.service "test" 2 5 Broken.world
           (ParseError "/appengine") eq_refl).
Defined.

Lemma accessors_panic_on_unparsable_URL_witness :
  @url_Parse Broken.env (@URL_String Broken.env (appEngineURL Broken.service))
  = inl (ParseError "/appengine")
  /\ GetDevice Broken.service "test" "dev" AstarteDeviceID Broken.world
     = Panicked
  /\ AddDeviceAlias Broken.service "test" "dev" "t1" "foo" Broken.world
     = Panicked.
Proof.
  split; [reflexivity|].
  destruct (accessors_panic_on_unparsable_URL Broken.service "test" "dev"
              AstarteDeviceID "t1" "foo" "k" "v" true Broken.world
              (ParseError "/appengine") eq_refl)
    as (Hget & _ & _ & Hadd & _).
  split; [exact Hget|exact Hadd].
Defined.

Lemma get_accessors_requests_witness :
  url_Parse (URL_String (appEngineURL Fake.service))
  = inr (mkURL "" "" "/appengine" "")
  /\ requestsOf (Fake.world [] None)
       (ListDeviceInterfaces Fake.service "test" "my-alias"
          AutodiscoverDeviceIdentifier (Fake.world [] None))
     = Some [mkRequest GET
               "/appengine/v1/test/devices-by-alias/my-alias/interfaces" None]
  /\ requestsOf (Fake.world [] None)
       (GetDevicesStats Fake.service "test" (Fake.world [] None))
     = Some [mkRequest GET "/appengine/v1/test/stats/devices" None].
Proof.
  split; [reflexivity|].
  destruct (get_accessors_requests Fake.service (mkURL "" "" "/appengine" "")
              eq_refl "test" "my-alias" AutodiscoverDeviceIdentifier
              (Fake.world [] None)) as (_ & Hint & Hstats).
  split; [exact Hint|exact Hstats].
Defined.

Lemma helpers_follow_GetDevice_witness :
  url_Parse (URL_String (appEngineURL Fake.service))
  = inr (mkURL "" "" "/appengine" "")
  /\ requestsOf (Fake.world [] None)
       (GetDeviceIDFromAlias Fake.service "test" "0123456789012345678901"
          (Fake.world [] None))
     = Some [mkRequest GET
               "/appengine/v1/test/devices-by-alias/0123456789012345678901"
               None]
  /\ requestsOf (Fake.world [] None)
       (ListDeviceAliases Fake.service "test" "my-alias" (Fake.world [] None))
     = Some [mkRequest GET "/appengine/v1/test/devices/my-alias" None].
Proof.
  split; [reflexivity|].
  destruct (helpers_follow_GetDevice Fake.service
              (mkURL "" "" "/appengine" "") eq_refl "test"
              "0123456789012345678901" AstarteDeviceID (Fake.world [] None))
    as ((Halias & _) & _).
  destruct (helpers_follow_GetDevice Fake.service
              (mkURL "" "" "/appengine" "") eq_refl "test"
              "my-alias" AstarteDeviceID (Fake.world [] None))
    as (_ & (Hid & _) & _).
  split; [exact Halias|exact Hid].
Defined.

Lemma alias_helpers_share_URL_witness :
  url_Parse (URL_String (appEngineURL Fake.service))
  = inr (mkURL "" "" "/appengine" "")
  /\ devicePath "dev" AstarteDeviceID = "devices/" +:+ "dev"
  /\ exists u,
       requestsOf (Fake.world [] None)
         (ListDeviceAliases Fake.service "test" "dev" (Fake.world [] None))
       = Some [mkRequest GET u None]
       /\ requestsOf (Fake.world [] None)
            (AddDeviceAlias Fake.service "test" "dev" "t1" "foo"
               (Fake.world [] None))
          = Some [mkRequest PATCH u
                    (Some (JObject [("aliases",
                                     JObject [("t1", JString "foo")])]))].
Proof.
  split; [reflexivity|]. split; [reflexivity|].
  destruct (alias_helpers_share_URL Fake.service (mkURL "" "" "/appengine" "")
              eq_refl "test" "dev" "t1" "foo" true (Fake.world [] None)
              eq_refl) as (u & Hlist & Hadd & _).
  exists u. split; [exact Hlist|exact Hadd].
Defined.

(** The fake backend has no device endpoint: the lookup of an alias
    returns its 404 with the empty string. *)
Example GetDeviceIDFromAlias_404 :
  GetDeviceIDFromAlias Fake.service "test" "my-alias" (Fake.world [] None)
  = Returned (("", Some (UnexpectedStatus 404 JNull)),
              {| backend := Fake.mkBackend [] None;
                 sent := [mkRequest GET
                            "/appengine/v1/test/devices-by-alias/my-alias"
                            None] |}).
Proof. vm_compute. reflexivity. Qed.

Lemma autodetect_dispatch_witness :
  @IsValidAstarteDeviceID Registry.env "0123456789012345678901" = true
  /\ @GetDeviceIDFromDeviceIdentifier Registry.env Registry.service "test"
       "0123456789012345678901" AutodiscoverDeviceIdentifier Registry.world
     = Returned (("0123456789012345678901", None), Registry.world)
  /\ @IsValidAstarteDeviceID Registry.env "my-alias" = false
  /\ @GetDeviceIDFromDeviceIdentifier Registry.env Registry.service "test"
       "my-alias" AutodiscoverDeviceIdentifier Registry.world
     = Returned
         (("0123456789012345678901", None),
          @mkWorld Registry.env Registry.registered
            [mkRequest GET "/appengine/v1/test/devices-by-alias/my-alias"
               None]).
Proof.
  split; [reflexivity|].
  split; [exact (proj1 (@autodetect_dispatch Registry.env Registry.service
                          "test" "0123456789012345678901" Registry.world)
                   eq_refl)|].
  split; [reflexivity|].
  exact (proj2 (@autodetect_dispatch Registry.env Registry.service "test"
                  "my-alias" Registry.world) eq_refl).
Defined.

Lemma ListDevices_only_fetches_witness :
  exists w' reqs,
    ListDevices 7 Fake.service "test"
      (Fake.world ["a"; "b"; "c"; "d"; "e"] None)
    = Some ((["a"; "b"; "c"; "d"; "e"], None), w')
    /\ sent w' = reqs
    /\ List.length reqs = 3%nat
    /\ Forall (fun req => reqMethod req = GET /\ reqPayload req = None) reqs.
Proof.
  assert (exists w',
            ListDevices 7 Fake.service "test"
              (Fake.world ["a"; "b"; "c"; "d"; "e"] None)
            = Some ((["a"; "b"; "c"; "d"; "e"], None), w')
            /\ List.length (sent w') = 3%nat) as (w' & Hrun & Hlen)
    by (eexists; split; vm_compute; reflexivity).
  destruct (ListDevices_only_fetches Fake.service "test" 7 _ _ _ Hrun)
    as (reqs & Hsent & Hall).
  exists w', reqs. cbn [sent Fake.world app] in Hsent.
  split; [exact Hrun|]. split; [exact Hsent|].
  split; [by rewrite <- Hsent|].
  eapply Forall_impl; [exact Hall|]. intros req (Hm & Hp & _). by split.
Defined.

Lemma endless_backend : @endlessBackend Endless.env tt.
Proof.
  intros req b. exists (Fake.pageBody ["a"] (Some "more")), b, ["a"], "more".
  split; [reflexivity|]. apply FakeFacts.decodePage_pageBody.
Qed.

Lemma ListDevices_endless_witness :
  @url_Parse Endless.env
    (@URL_String Endless.env (appEngineURL Endless.service))
  = inr (mkURL "" "" "/appengine" "")
  /\ @endlessBackend Endless.env (client Endless.service)
  /\ ListDevices 1000 Endless.service "test" Endless.world = None.
Proof.
  split; [reflexivity|]. split; [exact endless_backend|].
  exact (ListDevices_endless Endless.service "test"
           (mkURL "" "" "/appengine" "") Endless.world eq_refl
           endless_backend 1000).
Defined.

Lemma alias_ops_resolve_dotdot_witness :
  isCleanSegment "mine" = true
  /\ AddDeviceAlias Fake.service "test" ("mine" +:+ "/../" +:+ "theirs")
       "t1" "foo" (Fake.world [] None)
     = AddDeviceAlias Fake.service "test" "theirs" "t1" "foo"
         (Fake.world [] None).
Proof.
  split; [reflexivity|].
  exact (proj1 (alias_ops_resolve_dotdot Fake.service "test" "mine" "theirs"
                  "t1" "foo" (Fake.world [] None) eq_refl)).
Defined.

Lemma realm_resolves_dotdot_witness :
  isCleanSegment "mine" = true
  /\ GetDeviceListPaginator Fake.service ("mine" +:+ "/../" +:+ "theirs") 2
     = GetDeviceListPaginator Fake.service "theirs" 2.
Proof.
  split; [reflexivity|].
  exact (proj1 (realm_resolves_dotdot Fake.service "mine" "theirs" 2 0
                  (Fake.world [] None) eq_refl)).
Defined.


Lemma clean_identifiers_keep_their_path_witness :
  url_Parse (URL_String (appEngineURL Fake.service))
  = inr (mkURL "" "" "/appengine" "")
  /\ emptyOrRooted "/appengine" = true
  /\ isCleanSegment "test" = true
  /\ isCleanSegment "dev" = true
  /\ exists p,
       HasSuffix p ("/v1/" +:+ "test" +:+ "/stats/devices")
       /\ requestsOf (Fake.world [] None)
            (GetDevicesStats Fake.service "test" (Fake.world [] None))
          = Some [mkRequest GET
                    (URL_String (setPath (mkURL "" "" "/appengine" "") p))
                    None].
Proof.
  split; [reflexivity|]. split; [reflexivity|].
  split; [reflexivity|]. split; [reflexivity|].
  destruct (clean_identifiers_keep_their_path Fake.service
              (mkURL "" "" "/appengine" "") eq_refl eq_refl
              "test" "dev" "t1" "foo" (Fake.world [] None) eq_refl eq_refl)
    as (_ & _ & Hstats).
  exact Hstats.
Defined.

(** A device ID with [..] reaches another device. *)
Example AddDeviceAlias_dotdot_run :
  requestsOf (Fake.world [] None)
    (AddDeviceAlias Fake.service "test" "mine/../theirs" "t1" "foo"
       (Fake.world [] None))
  = Some [mkRequest PATCH "/appengine/v1/test/devices/theirs"
            (Some (JObject [("aliases", JObject [("t1", JString "foo")])]))].
Proof. vm_compute. reflexivity. Qed.
